(** * smart-fin-bd: the investment recommendation engine

    A shallow embedding of
    - [InvestmentRecommendationService] (services/investmentRecommendation):
      [filterByRiskTolerance], [calculateAssetAllocation],
      [calculateSuitabilityScore], [calculateRecommendedAmount],
      [generateReasoning], [generateRecommendations], [calculateProjection]
      and [getInvestmentDetails], with the catalog [bangladeshInvestments],
      [getAllInvestments] and [calculateOptimalPortfolio];
    - [calculateRiskScore] of screens/profile/RiskAssessmentScreen.tsx, with
      its [riskQuestions], and the handlers of the screen ([handleAnswer],
      [handleNext], [handlePrevious]) as a transition system;
    - [SecurityValidator] (utils/securityValidator.ts), its regular
      expressions run by derivatives ([RegExp]);
    - the actions of the investment store, [useInvestmentStore]
      ([InvestmentStore]);
    then the formulas of the specification ([Reference]), the notions the
    statements use ([Notions]), sample inputs ([Samples]) and the properties.

    Numbers.  A finite JavaScript [number] is modelled as an exact rational
    ([Q]); a value the code only ever builds from integer literals or rounds
    (a score, a counter, the result of [Math.round]) is an integer ([Z]).
    The rounding error of binary64 arithmetic and the sign of zero are
    therefore not part of this model.  Divisions by the constants 100 and 32
    are divisions of rationals.  The two quotients whose divisor comes from
    the user's profile and can be zero are modelled with their IEEE results
    ([JS.div]): plus or minus Infinity and NaN.

    Rounding.  The relation between the rounded fields of a projection
    depends on the rounding of each operation.  For it [calculateProjection]
    is embedded a second time ([Binary64]), every operation giving the
    binary64 number nearest to its exact result (the even one of two
    nearest), an infinity on overflow, and NaN where IEEE 754 says so.

    Effects.  [generateRecommendations] reads the system clock twice for each
    recommendation it pushes; the clock is a parameter giving the successive
    readings, and the loop threads the number of readings made.  The
    [forEach] loops are folds over the array, [push] appends at the end. *)

From Stdlib Require Import ZArith QArith Qround Qminmax Qpower Qabs Lqa Lia.
From Stdlib Require Import Sorted Permutation Ascii.
From stdpp Require Import base gmap strings list.

(** ** JavaScript numbers and operators *)

Module JS.

(** The result of a division whose divisor may be zero. *)
Inductive number : Type :=
| Finite (q : Q)
| PosInfinity
| NegInfinity
| NaN.

(** [a / b] on finite operands: [0 / 0] is NaN, [a / 0] is an infinity of
    the sign of [a]. *)
Definition div (a b : Q) : number :=
  if Qeq_bool b 0 then
    if Qeq_bool a 0 then NaN
    else if Qle_bool 0 a then PosInfinity else NegInfinity
  else Finite (a / b).

(** [x >= c] for a finite [c]: every comparison with NaN is false. *)
Definition ge (x : number) (c : Q) : bool :=
  match x with
  | Finite q => Qle_bool c q
  | PosInfinity => true
  | NegInfinity => false
  | NaN => false
  end.

(** [a < b], [a >= b], [a <= b] and [a === b] on finite numbers. *)
Definition ltb (a b : Q) : bool := negb (Qle_bool b a).
Definition geb (a b : Q) : bool := Qle_bool b a.
Definition leb (a b : Q) : bool := Qle_bool a b.
Definition eqb (a b : Q) : bool := Qeq_bool a b.

Definition Math_max (a b : Q) : Q := Qmax a b.
Definition Math_min (a b : Q) : Q := Qmin a b.

(** [Math.round] rounds to the nearest integer, halves towards
    plus infinity. *)
Definition Math_round (x : Q) : Z := Qfloor (x + 0.5)%Q.

(** [o.key || d] for a property that may be absent: [undefined] and [0] are
    falsy. *)
Definition or_default (x : option Q) (d : Q) : Q :=
  match x with
  | Some v => if Qeq_bool v 0 then d else v
  | None => d
  end.

(** A string is truthy unless it is empty. *)
Definition truthy (s : string) : bool :=
  match s with
  | EmptyString => false
  | String _ _ => true
  end.

(** The pieces of a template literal, in order.  [Num q] stands for the
    text JavaScript renders the number [q] as. *)
Inductive piece : Type :=
| Text (s : string)
| Num (q : Q).

(** [Array.prototype.sort(compare)]: the sort is stable, so with a
    consistent [compare] its result is the one of insertion sort, where an
    element goes before the first element it does not compare greater
    than. *)
Section Sort.
Context {A : Type} (compare : A -> A -> Z).

Fixpoint insert (x : A) (l : list A) : list A :=
  match l with
  | [] => [x]
  | y :: l' =>
      if (compare x y <=? 0)%Z then x :: y :: l' else y :: insert x l'
  end.

Fixpoint sort (l : list A) : list A :=
  match l with
  | [] => []
  | x :: l' => insert x (sort l')
  end.

(** [x] may stand before [y]. *)
Definition before (x y : A) : Prop := (compare x y <= 0)%Z.
End Sort.

(** Arithmetic on values that may be infinite or NaN, as IEEE 754 defines
    it (a zero is taken as positive). *)
Definition add (x y : number) : number :=
  match x, y with
  | NaN, _ | _, NaN => NaN
  | Finite a, Finite b => Finite (a + b)
  | PosInfinity, NegInfinity | NegInfinity, PosInfinity => NaN
  | PosInfinity, _ | _, PosInfinity => PosInfinity
  | NegInfinity, _ | _, NegInfinity => NegInfinity
  end.

(** [q * inf], for [inf] an infinity and [opp] its opposite. *)
Definition scale (q : Q) (inf opp : number) : number :=
  if Qeq_bool q 0 then NaN else if Qle_bool 0 q then inf else opp.

Definition mul (x y : number) : number :=
  match x, y with
  | NaN, _ | _, NaN => NaN
  | Finite a, Finite b => Finite (a * b)
  | Finite a, PosInfinity | PosInfinity, Finite a =>
      scale a PosInfinity NegInfinity
  | Finite a, NegInfinity | NegInfinity, Finite a =>
      scale a NegInfinity PosInfinity
  | PosInfinity, PosInfinity | NegInfinity, NegInfinity => PosInfinity
  | PosInfinity, NegInfinity | NegInfinity, PosInfinity => NegInfinity
  end.

Definition divide (x y : number) : number :=
  match x, y with
  | NaN, _ | _, NaN => NaN
  | Finite a, Finite b => div a b
  | Finite _, PosInfinity | Finite _, NegInfinity => Finite 0
  | PosInfinity, Finite b =>
      if Qle_bool 0 b then PosInfinity else NegInfinity
  | NegInfinity, Finite b =>
      if Qle_bool 0 b then NegInfinity else PosInfinity
  | PosInfinity, PosInfinity | PosInfinity, NegInfinity
  | NegInfinity, PosInfinity | NegInfinity, NegInfinity => NaN
  end.

(** [x > c] for a finite [c]. *)
Definition gt (x : number) (c : Q) : bool :=
  match x with
  | Finite q => negb (Qle_bool q c)
  | PosInfinity => true
  | NegInfinity => false
  | NaN => false
  end.

End JS.

(** ** types/index.ts, as the service uses it *)

(** The enumerations [RiskTolerance], [RiskLevel] and [InvestmentType] are
    taken with the members the service and the screen name
    ([RiskTolerance.CONSERVATIVE], [RiskLevel.LOW], [InvestmentType.BOND]). *)
Inductive RiskTolerance : Type := CONSERVATIVE | MODERATE | AGGRESSIVE.

Inductive RiskLevel : Type := LOW | MEDIUM | HIGH.

Inductive InvestmentType : Type :=
| SANCHAYAPATRA | DPS | FIXED_DEPOSIT | MUTUAL_FUND | STOCK | BOND.

(** The string value of an [InvestmentType] member. *)
Definition InvestmentType_value (t : InvestmentType) : string :=
  match t with
  | SANCHAYAPATRA => "sanchayapatra"
  | DPS => "dps"
  | FIXED_DEPOSIT => "fixed_deposit"
  | MUTUAL_FUND => "mutual_fund"
  | STOCK => "stock"
  | BOND => "bond"
  end.

(** [User] and [FinancialProfile], with the fields the service reads. *)
Record User : Type := mkUser {
  user_id : string;
  age : Q;
}.

Record FinancialProfile : Type := mkFinancialProfile {
  monthlyIncome : Q;
  monthlyExpenses : Q;
  currentSavings : Q;
  dependents : Q;
}.

Record RiskAssessmentAnswer : Type := mkRiskAssessmentAnswer {
  questionId : string;
  answer : string;
  answer_score : Z;
}.

Record RiskAssessment : Type := mkRiskAssessment {
  userId : string;
  score : Z;
  tolerance : RiskTolerance;
  answers : list RiskAssessmentAnswer;
  completedAt : Z;
}.

Record InvestmentRecommendation : Type := mkInvestmentRecommendation {
  rec_id : list JS.piece;
  rec_userId : string;
  investmentType : InvestmentType;
  recommendedAmount : Q;
  rec_expectedReturn : Q;
  rec_riskLevel : RiskLevel;
  reasoning : list JS.piece;
  rec_pros : list string;
  rec_cons : list string;
  suitabilityScore : Z;
  createdAt : Z;
}.

(** ** services/investmentRecommendation.ts *)

Inductive Category : Type :=
| government | bank | stock | mutual_fund | bond | sanchayapatra.

(** [BangladeshInvestmentOption].  The text-only fields no function reads
    ([description], [features], [eligibility], [provider]) are left out. *)
Record BangladeshInvestmentOption : Type := mkOption {
  type : InvestmentType;
  name : string;
  nameEn : string;
  expectedReturn : Q;
  minInvestment : Q;
  maxInvestment : option Q;
  riskLevel : RiskLevel;
  liquidityDays : Z;
  taxBenefit : bool;
  pros : list string;
  cons : list string;
  category : Category;
}.

Definition bangladeshInvestments : list BangladeshInvestmentOption :=
  [ {| type := SANCHAYAPATRA;
       name := "সঞ্চয়পত্র";
       nameEn := "Sanchayapatra";
       expectedReturn := 8.5%Q;
       minInvestment := 1000%Q;
       maxInvestment := Some 3000000%Q;
       riskLevel := LOW;
       liquidityDays := 365;
       taxBenefit := true;
       pros := [ "সরকারি গ্যারান্টি"; "নিশ্চিত রিটার্ন"; "কর সুবিধা (সীমিত)";
                 "মুদ্রাস্ফীতির চেয়ে ভালো রিটার্ন" ];
       cons := [ "তুলনামূলক কম রিটার্ন"; "তরলতা সীমিত"; "বিনিয়োগ সীমা আছে" ];
       category := government |};
    {| type := DPS;
       name := "DPS";
       nameEn := "Deposit Pension Scheme";
       expectedReturn := 7.2%Q;
       minInvestment := 500%Q;
       maxInvestment := None;
       riskLevel := LOW;
       liquidityDays := 30;
       taxBenefit := false;
       pros := [ "নিয়মিত সঞ্চয়ের অভ্যাস"; "নিরাপদ বিনিয়োগ"; "পেনশন পরিকল্পনা";
                 "কম পরিমাণ থেকে শুরু" ];
       cons := [ "মুদ্রাস্ফীতির তুলনায় কম রিটার্ন"; "সময়ের আগে তোলায় জরিমানা";
                 "ব্যাংক ঝুঁকি" ];
       category := bank |};
    {| type := FIXED_DEPOSIT;
       name := "ফিক্সড ডিপোজিট";
       nameEn := "Fixed Deposit";
       expectedReturn := 6.5%Q;
       minInvestment := 1000%Q;
       maxInvestment := None;
       riskLevel := LOW;
       liquidityDays := 7;
       taxBenefit := false;
       pros := [ "সম্পূর্ণ নিরাপদ"; "নিশ্চিত রিটার্ন"; "সহজ প্রক্রিয়া"; "বিভিন্ন মেয়াদ" ];
       cons := [ "কম রিটার্ন"; "মুদ্রাস্ফীতির ঝুঁকি"; "তরলতা সীমিত" ];
       category := bank |};
    {| type := MUTUAL_FUND;
       name := "মিউচুয়াল ফান্ড";
       nameEn := "Mutual Fund";
       expectedReturn := 12.3%Q;
       minInvestment := 5000%Q;
       maxInvestment := None;
       riskLevel := MEDIUM;
       liquidityDays := 3;
       taxBenefit := false;
       pros := [ "পেশাদার ব্যবস্থাপনা"; "ঝুঁকি বিভাজন"; "ভালো তরলতা"; "স্বচ্ছতা" ];
       cons := [ "বাজার ঝুঁকি"; "ব্যবস্থাপনা ফি"; "রিটার্ন অনিশ্চিত" ];
       category := mutual_fund |};
    {| type := STOCK;
       name := "স্টক মার্কেট";
       nameEn := "Stock Market";
       expectedReturn := 15.8%Q;
       minInvestment := 10000%Q;
       maxInvestment := None;
       riskLevel := HIGH;
       liquidityDays := 1;
       taxBenefit := false;
       pros := [ "উচ্চ রিটার্ন সম্ভাবনা"; "তাৎক্ষণিক তরলতা"; "লভ্যাংশ আয়";
                 "মালিকানা অধিকার" ];
       cons := [ "উচ্চ ঝুঁকি"; "বাজার অস্থিরতা"; "গবেষণা প্রয়োজন"; "আবেগের প্রভাব" ];
       category := stock |};
    {| type := BOND;
       name := "সরকারি বন্ড";
       nameEn := "Government Bond";
       expectedReturn := 7.8%Q;
       minInvestment := 100000%Q;
       maxInvestment := None;
       riskLevel := LOW;
       liquidityDays := 30;
       taxBenefit := true;
       pros := [ "সরকারি গ্যারান্টি"; "নিয়মিত সুদ প্রদান"; "দ্বিতীয়ক বাজারে বিক্রয়";
                 "কর সুবিধা" ];
       cons := [ "উচ্চ ন্যূনতম বিনিয়োগ"; "সুদের হার পরিবর্তনের ঝুঁকি"; "তরলতা সীমিত" ];
       category := government |} ].

#[global] Instance RiskLevel_eq_dec : EqDecision RiskLevel.
Proof. solve_decision. Defined.

#[global] Instance RiskTolerance_eq_dec : EqDecision RiskTolerance.
Proof. solve_decision. Defined.

(** One entry of [yearlyBreakdown] and the result of [calculateProjection]. *)
Record YearlyEntry : Type := mkYearlyEntry {
  year : Z;
  investment : Q;
  value : Z;
  return_ : Z;
}.

Record Projection : Type := mkProjection {
  futureValue : Z;
  totalInvestment : Q;
  totalReturn : Z;
  yearlyBreakdown : list YearlyEntry;
}.

Module InvestmentRecommendationService.

Local Open Scope Q_scope.

(** [filterByRiskTolerance].  The [default] branch of the source's
    [switch] is for values outside the enumeration; it filters like
    [CONSERVATIVE]. *)
Definition filterByRiskTolerance
    (investments : list BangladeshInvestmentOption)
    (riskTolerance : RiskTolerance) : list BangladeshInvestmentOption :=
  match riskTolerance with
  | CONSERVATIVE => filter (fun inv => riskLevel inv = LOW) investments
  | MODERATE =>
      filter (fun inv => riskLevel inv = LOW \/ riskLevel inv = MEDIUM)
        investments
  | AGGRESSIVE => investments
  end.

(** [calculateAssetAllocation]: the object it returns, by property name. *)
Definition calculateAssetAllocation
    (age : Q) (riskTolerance : RiskTolerance) : gmap string Q :=
  let stockAllocation := 100 - age in
  let stockAllocation :=
    match riskTolerance with
    | CONSERVATIVE => JS.Math_max (stockAllocation - 20) 10
    | AGGRESSIVE => JS.Math_min (stockAllocation + 20) 80
    | MODERATE => stockAllocation
    end in
  let bondAllocation := 100 - stockAllocation in
  {[ "stocks" := stockAllocation;
     "bonds" := bondAllocation;
     "government" := JS.Math_min (bondAllocation * 0.6) 40;
     "bank" := JS.Math_min (bondAllocation * 0.4) 30 ]}.

(** The six additions of [calculateSuitabilityScore], one definition per
    commented block of the source. *)

(** Age factor (25 points). *)
Definition ageFactor (age : Q) (level : RiskLevel) : Z :=
  if JS.ltb age 30 then
    match level with HIGH => 25 | MEDIUM => 20 | LOW => 15 end
  else if JS.ltb age 50 then
    match level with MEDIUM => 25 | LOW => 20 | HIGH => 15 end
  else
    match level with LOW => 25 | MEDIUM => 15 | HIGH => 10 end.

(** Risk tolerance factor (25 points). *)
Definition riskToleranceFactor
    (riskTolerance : RiskTolerance) (level : RiskLevel) : Z :=
  match riskTolerance with
  | CONSERVATIVE => match level with LOW => 25 | _ => 0 end
  | MODERATE => match level with MEDIUM => 25 | LOW => 20 | HIGH => 10 end
  | AGGRESSIVE => match level with HIGH => 25 | MEDIUM => 20 | LOW => 15 end
  end.

(** Income factor (20 points). *)
Definition incomeFactor (income : Q) : Z :=
  if JS.geb income 100000 then 20
  else if JS.geb income 50000 then 15
  else if JS.geb income 25000 then 10
  else 5.

(** Savings capacity factor (15 points). *)
Definition savingsFactor (income expenses : Q) : Z :=
  let savingsRate := JS.div (income - expenses) income in
  if JS.ge savingsRate 0.3 then 15
  else if JS.ge savingsRate 0.2 then 12
  else if JS.ge savingsRate 0.1 then 8
  else 3.

(** Dependents factor (10 points). *)
Definition dependentsFactor (deps : Q) : Z :=
  if JS.eqb deps 0 then 10
  else if JS.leb deps 2 then 7
  else 3.

(** Emergency fund factor (5 points). *)
Definition emergencyFundFactor (savings expenses : Q) : Z :=
  let emergencyFundMonths := JS.div savings expenses in
  if JS.ge emergencyFundMonths 6 then 5
  else if JS.ge emergencyFundMonths 3 then 3
  else 1.

Definition calculateSuitabilityScore
    (investment : BangladeshInvestmentOption) (user : User)
    (financialProfile : FinancialProfile)
    (riskAssessment : RiskAssessment) : Z :=
  let score := 0%Z in
  let score := (score + ageFactor (age user) (riskLevel investment))%Z in
  let score :=
    (score + riskToleranceFactor (tolerance riskAssessment)
               (riskLevel investment))%Z in
  let score := (score + incomeFactor (monthlyIncome financialProfile))%Z in
  let score :=
    (score + savingsFactor (monthlyIncome financialProfile)
               (monthlyExpenses financialProfile))%Z in
  let score := (score + dependentsFactor (dependents financialProfile))%Z in
  let score :=
    (score + emergencyFundFactor (currentSavings financialProfile)
               (monthlyExpenses financialProfile))%Z in
  Z.min score 100.

(** The percentage [calculateRecommendedAmount] picks for a category. *)
Definition percentageFor
    (c : Category) (allocation : gmap string Q) : Q :=
  match c with
  | government => JS.or_default (allocation !! "government") 20
  | bank => JS.or_default (allocation !! "bank") 20
  | stock | mutual_fund => JS.or_default (allocation !! "stocks") 30
  | bond | sanchayapatra => 10
  end.

Definition calculateRecommendedAmount
    (investment : BangladeshInvestmentOption) (availableAmount : Q)
    (allocation : gmap string Q) : Q :=
  let percentage := percentageFor (category investment) allocation in
  let recommendedAmount := (availableAmount * percentage) / 100 in
  JS.Math_max recommendedAmount (minInvestment investment).

Definition generateReasoning
    (investment : BangladeshInvestmentOption) (user : User)
    (suitabilityScore : Z) : list JS.piece :=
  let ageGroup :=
    if JS.ltb (age user) 30 then "তরুণ"
    else if JS.ltb (age user) 50 then "মধ্যবয়সী" else "প্রবীণ" in
  let reasoning :=
    [ JS.Text "আপনার "; JS.Text ageGroup;
      JS.Text " বয়স এবং আর্থিক প্রোফাইলের জন্য ";
      JS.Text (name investment); JS.Text " একটি " ] in
  let reasoning :=
    reasoning ++
    [ JS.Text
        (if (80 <=? suitabilityScore)%Z then "অত্যন্ত উপযুক্ত বিনিয়োগ। "
         else if (70 <=? suitabilityScore)%Z then "ভালো বিনিয়োগ বিকল্প। "
         else "মাঝারি উপযুক্ত বিনিয়োগ। ") ] in
  let reasoning :=
    reasoning ++
    [ JS.Text "এই বিনিয়োগে "; JS.Num (expectedReturn investment);
      JS.Text "% বার্ষিক রিটার্ন প্রত্যাশিত এবং " ] in
  reasoning ++
  [ JS.Text "ঝুঁকির মাত্রা ";
    JS.Text
      (match riskLevel investment with
       | LOW => "কম" | MEDIUM => "মাঝারি" | HIGH => "উচ্চ" end);
    JS.Text "।" ].

(** The body of the [forEach] of [generateRecommendations].  The state is
    the [recommendations] array and the number of readings of the system
    clock made so far ([Date.now()], then [new Date()]); [clock n] is the
    n-th reading. *)
Definition visit
    (clock : nat -> Z) (user : User) (financialProfile : FinancialProfile)
    (riskAssessment : RiskAssessment) (availableAmount : Q)
    (allocation : gmap string Q)
    (st : list InvestmentRecommendation * nat)
    (investment : BangladeshInvestmentOption)
    : list InvestmentRecommendation * nat :=
  let '(recommendations, tick) := st in
  let suitabilityScore :=
    calculateSuitabilityScore investment user financialProfile
      riskAssessment in
  if (60 <=? suitabilityScore)%Z then
    let recommendedAmount :=
      calculateRecommendedAmount investment availableAmount allocation in
    if JS.geb recommendedAmount (minInvestment investment) then
      (recommendations ++
       [ {| rec_id :=
              [ JS.Text "rec_";
                JS.Text (InvestmentType_value (type investment));
                JS.Text "_"; JS.Num (inject_Z (clock tick)) ];
            rec_userId := user_id user;
            investmentType := type investment;
            recommendedAmount := recommendedAmount;
            rec_expectedReturn := expectedReturn investment;
            rec_riskLevel := riskLevel investment;
            reasoning := generateReasoning investment user suitabilityScore;
            rec_pros := pros investment;
            rec_cons := cons investment;
            suitabilityScore := suitabilityScore;
            createdAt := clock (S tick) |} ],
       S (S tick))
    else st
  else st.

(** The [compare] function handed to [sort]. *)
Definition bySuitability (a b : InvestmentRecommendation) : Z :=
  (suitabilityScore b - suitabilityScore a)%Z.

Definition generateRecommendations
    (clock : nat -> Z) (user : User) (financialProfile : FinancialProfile)
    (riskAssessment : RiskAssessment) : list InvestmentRecommendation :=
  let availableAmount :=
    monthlyIncome financialProfile - monthlyExpenses financialProfile in
  let suitableInvestments :=
    filterByRiskTolerance bangladeshInvestments
      (tolerance riskAssessment) in
  let allocation :=
    calculateAssetAllocation (age user) (tolerance riskAssessment) in
  let recommendations :=
    fst (fold_left
           (visit clock user financialProfile riskAssessment
              availableAmount allocation)
           suitableInvestments ([], 0%nat)) in
  JS.sort bySuitability recommendations.

(** [calculateProjection].  The state of its [for] loop: the counter
    [year] and the three variables the body updates. *)
Record LoopState : Type := mkLoopState {
  loop_year : Z;
  loop_totalInvestment : Q;
  loop_currentValue : Q;
  loop_yearlyBreakdown : list YearlyEntry;
}.

Definition loopBody
    (annualReturn monthlyContribution : Q) (st : LoopState) : LoopState :=
  let yearlyContribution := monthlyContribution * 12 in
  let totalInvestment := loop_totalInvestment st + yearlyContribution in
  let currentValue :=
    (loop_currentValue st + yearlyContribution)
    * (1 + annualReturn / 100) in
  {| loop_year := loop_year st + 1;
     loop_totalInvestment := totalInvestment;
     loop_currentValue := currentValue;
     loop_yearlyBreakdown :=
       loop_yearlyBreakdown st ++
       [ {| year := loop_year st;
            investment := totalInvestment;
            value := JS.Math_round currentValue;
            return_ := JS.Math_round (currentValue - totalInvestment) |} ]
  |}.

(** [for (...; year <= years; year++)], with the number of iterations
    bounded by [fuel]. *)
Fixpoint loop
    (fuel : nat) (annualReturn : Q) (years : Z) (monthlyContribution : Q)
    (st : LoopState) : LoopState :=
  match fuel with
  | O => st
  | S fuel' =>
      if (loop_year st <=? years)%Z then
        loop fuel' annualReturn years monthlyContribution
          (loopBody annualReturn monthlyContribution st)
      else st
  end.

(** [years] is an integer; the loop is given [years] iterations, which is
    what it needs ([loop_exit] below). *)
Definition calculateProjection
    (amount annualReturn : Q) (years : Z) (monthlyContribution : Q)
    : Projection :=
  let st :=
    loop (Z.to_nat years) annualReturn years monthlyContribution
      {| loop_year := 1;
         loop_totalInvestment := amount;
         loop_currentValue := amount;
         loop_yearlyBreakdown := [] |} in
  {| futureValue := JS.Math_round (loop_currentValue st);
     totalInvestment := loop_totalInvestment st;
     totalReturn :=
       JS.Math_round (loop_currentValue st - loop_totalInvestment st);
     yearlyBreakdown := loop_yearlyBreakdown st |}.

#[global] Instance InvestmentType_eq_dec : EqDecision InvestmentType.
Proof. solve_decision. Defined.

(** [getInvestmentDetails]: [None] stands for [null]. *)
Definition getInvestmentDetails
    (t : InvestmentType) : option BangladeshInvestmentOption :=
  List.find (fun inv => bool_decide (type inv = t)) bangladeshInvestments.

(** [getAllInvestments]. *)
Definition getAllInvestments : list BangladeshInvestmentOption :=
  bangladeshInvestments.

(** The result of [calculateOptimalPortfolio]. *)
Record OptimalPortfolio : Type := mkOptimalPortfolio {
  portfolio_allocation : gmap string Q;
  portfolio_recommendations : list InvestmentRecommendation;
  projectedReturn : JS.number;
}.

(** The body of the [forEach] of [calculateOptimalPortfolio]; the state is
    [totalWeight] and [weightedReturn]. *)
Definition weigh
    (targetAmount : Q) (st : JS.number * JS.number)
    (rec : InvestmentRecommendation) : JS.number * JS.number :=
  let '(totalWeight, weightedReturn) := st in
  let weight := JS.div (recommendedAmount rec) targetAmount in
  (JS.add totalWeight weight,
   JS.add weightedReturn
     (JS.mul (JS.Finite (rec_expectedReturn rec)) weight)).

Definition calculateOptimalPortfolio
    (clock : nat -> Z) (user : User) (financialProfile : FinancialProfile)
    (riskAssessment : RiskAssessment) (targetAmount : Q)
    : OptimalPortfolio :=
  let recommendations :=
    generateRecommendations clock user financialProfile riskAssessment in
  let allocation :=
    calculateAssetAllocation (age user) (tolerance riskAssessment) in
  let '(totalWeight, weightedReturn) :=
    fold_left (weigh targetAmount) recommendations
      (JS.Finite 0, JS.Finite 0) in
  let projectedReturn :=
    if JS.gt totalWeight 0 then JS.divide weightedReturn totalWeight
    else JS.Finite 0 in
  {| portfolio_allocation := allocation;
     portfolio_recommendations := recommendations;
     projectedReturn := projectedReturn |}.

End InvestmentRecommendationService.

(** ** [calculateProjection] in binary64

    A finite binary64 number is a rational [m * 2 ^ e] with [|m| < 2 ^ 53]
    and [-1074 <= e], below [2 ^ 1024] in absolute value.  An operation
    gives the number nearest to its exact result, the one with an even [m]
    when two are nearest, and an infinity when that number is not below
    [2 ^ 1024]. *)

Module Binary64.

Local Open Scope Q_scope.


(** The binade of a number that is not 0: the [k] with
    [2 ^ k <= |q| < 2 ^ (k + 1)]. *)
Definition binade (q : Q) : Z :=
  let k := (Z.log2 (Z.abs (Qnum q)) - Z.log2 (Z.pos (Qden q)))%Z in
  if Qle_bool (2 ^ k) (Qabs q) then k else (k - 1)%Z.

(** The exponent of the last of the 53 digits of the numbers of the binade
    of [q]; -1074 for the subnormal numbers. *)
Definition exponent (q : Q) : Z := Z.max (binade q - 52) (-1074).

(** The nearest integer, the even one of the two when [q] is half way. *)
Definition roundHalfEven (q : Q) : Z :=
  let f := Qfloor q in
  match Qcompare (q - inject_Z f) (1 # 2) with
  | Lt => f
  | Gt => (f + 1)%Z
  | Eq => if Z.even f then f else (f + 1)%Z
  end.

(** The nearest number with 53 digits, whatever its size. *)
Definition nearest (q : Q) : Q :=
  let e := exponent q in
  inject_Z (roundHalfEven (q / 2 ^ e)) * 2 ^ e.

(** The number the exact result [q] of an operation is rounded to. *)
Definition round (q : Q) : JS.number :=
  if Qeq_bool q 0 then JS.Finite 0
  else
    let r := nearest q in
    if Qle_bool (2 ^ 1024) (Qabs r) then
      if Qle_bool 0 q then JS.PosInfinity else JS.NegInfinity
    else JS.Finite (Qred r).

Definition rounded (x : JS.number) : JS.number :=
  match x with
  | JS.Finite q => round q
  | _ => x
  end.

Definition opp (x : JS.number) : JS.number :=
  match x with
  | JS.Finite q => JS.Finite (- q)
  | JS.PosInfinity => JS.NegInfinity
  | JS.NegInfinity => JS.PosInfinity
  | JS.NaN => JS.NaN
  end.

(** [x + y], [x - y], [x * y] and [x / y]. *)
Definition add (x y : JS.number) : JS.number := rounded (JS.add x y).
Definition sub (x y : JS.number) : JS.number := rounded (JS.add x (opp y)).
Definition mul (x y : JS.number) : JS.number := rounded (JS.mul x y).
Definition div (x y : JS.number) : JS.number := rounded (JS.divide x y).

(** [Math.round]: the nearest integer, the greater of two nearest ones; it
    is a binary64 number whenever its argument is one. *)
Definition Math_round (x : JS.number) : JS.number :=
  match x with
  | JS.Finite q => JS.Finite (inject_Z (Qfloor (q + (1 # 2))))
  | _ => x
  end.


Record YearlyEntry : Type := mkYearlyEntry {
  year : Z;
  investment : JS.number;
  value : JS.number;
  return_ : JS.number;
}.

Record Projection : Type := mkProjection {
  futureValue : JS.number;
  totalInvestment : JS.number;
  totalReturn : JS.number;
  yearlyBreakdown : list YearlyEntry;
}.

Record LoopState : Type := mkLoopState {
  loop_year : Z;
  loop_totalInvestment : JS.number;
  loop_currentValue : JS.number;
  loop_yearlyBreakdown : list YearlyEntry;
}.

Definition loopBody
    (annualReturn monthlyContribution : JS.number) (st : LoopState)
    : LoopState :=
  let yearlyContribution := mul monthlyContribution (JS.Finite 12) in
  let totalInvestment := add (loop_totalInvestment st) yearlyContribution in
  let currentValue :=
    mul (add (loop_currentValue st) yearlyContribution)
      (add (JS.Finite 1) (div annualReturn (JS.Finite 100))) in
  {| loop_year := loop_year st + 1;
     loop_totalInvestment := totalInvestment;
     loop_currentValue := currentValue;
     loop_yearlyBreakdown :=
       loop_yearlyBreakdown st ++
       [ {| year := loop_year st;
            investment := totalInvestment;
            value := Math_round currentValue;
            return_ := Math_round (sub currentValue totalInvestment) |} ]
  |}.

(** [for (...; year <= years; year++)], with the number of iterations
    bounded by [fuel]. *)
Fixpoint loop
    (fuel : nat) (annualReturn : JS.number) (years : Z)
    (monthlyContribution : JS.number) (st : LoopState) : LoopState :=
  match fuel with
  | O => st
  | S fuel' =>
      if (loop_year st <=? years)%Z then
        loop fuel' annualReturn years monthlyContribution
          (loopBody annualReturn monthlyContribution st)
      else st
  end.

(** [years] is an integer; the loop is given [years] iterations, which is
    what it needs. *)
Definition calculateProjection
    (amount annualReturn : JS.number) (years : Z)
    (monthlyContribution : JS.number) : Projection :=
  let st :=
    loop (Z.to_nat years) annualReturn years monthlyContribution
      {| loop_year := 1;
         loop_totalInvestment := amount;
         loop_currentValue := amount;
         loop_yearlyBreakdown := [] |} in
  {| futureValue := Math_round (loop_currentValue st);
     totalInvestment := loop_totalInvestment st;
     totalReturn :=
       Math_round (sub (loop_currentValue st) (loop_totalInvestment st));
     yearlyBreakdown := loop_yearlyBreakdown st |}.

End Binary64.

(** ** screens/profile/RiskAssessmentScreen.tsx *)

Module RiskAssessmentScreen.

Record QuestionOption : Type := mkQuestionOption {
  opt_value : string;
  label : string;
  opt_score : Z;
}.

Record Question : Type := mkQuestion {
  id : string;
  question : string;
  options : list QuestionOption;
}.

Definition riskQuestions : list Question :=
  [ {| id := "q1";
       question := "আপনার বয়স কত?";
       options :=
         [ mkQuestionOption "under25" "২৫ বছরের নিচে" 4;
           mkQuestionOption "25to35" "২৫-৩৫ বছর" 3;
           mkQuestionOption "35to50" "৩৫-৫০ বছর" 2;
           mkQuestionOption "over50" "৫০ বছরের উপরে" 1 ] |};
    {| id := "q2";
       question := "আপনার বিনিয়োগের অভিজ্ঞতা কেমন?";
       options :=
         [ mkQuestionOption "none" "কোনো অভিজ্ঞতা নেই" 1;
           mkQuestionOption "limited" "সীমিত অভিজ্ঞতা (১-২ বছর)" 2;
           mkQuestionOption "moderate" "মাঝারি অভিজ্ঞতা (৩-৫ বছর)" 3;
           mkQuestionOption "extensive" "ব্যাপক অভিজ্ঞতা (৫+ বছর)" 4 ] |};
    {| id := "q3";
       question := "আপনার বিনিয়োগের মূল লক্ষ্য কী?";
       options :=
         [ mkQuestionOption "capital_preservation" "মূলধন সংরক্ষণ" 1;
           mkQuestionOption "income_generation" "নিয়মিত আয় সৃষ্টি" 2;
           mkQuestionOption "balanced_growth" "সুষম বৃদ্ধি" 3;
           mkQuestionOption "aggressive_growth" "দ্রুত বৃদ্ধি" 4 ] |};
    {| id := "q4";
       question := "আপনার বিনিয়োগের সময়সীমা কত?";
       options :=
         [ mkQuestionOption "short" "১ বছরের কম" 1;
           mkQuestionOption "medium_short" "১-৩ বছর" 2;
           mkQuestionOption "medium_long" "৩-৭ বছর" 3;
           mkQuestionOption "long" "৭ বছরের বেশি" 4 ] |};
    {| id := "q5";
       question := "যদি আপনার বিনিয়োগ ২০% কমে যায়, আপনি কী করবেন?";
       options :=
         [ mkQuestionOption "sell_immediately" "তৎক্ষণাৎ বিক্রি করব" 1;
           mkQuestionOption "sell_some" "কিছু অংশ বিক্রি করব" 2;
           mkQuestionOption "hold" "ধরে রাখব" 3;
           mkQuestionOption "buy_more" "আরও কিনব" 4 ] |};
    {| id := "q6";
       question := "আপনার মাসিক আয়ের কত অংশ বিনিয়োগ করতে চান?";
       options :=
         [ mkQuestionOption "very_low" "৫% এর কম" 1;
           mkQuestionOption "low" "৫-১০%" 2;
           mkQuestionOption "moderate" "১০-২০%" 3;
           mkQuestionOption "high" "২০% এর বেশি" 4 ] |};
    {| id := "q7";
       question := "আপনার জরুরি তহবিল কেমন?";
       options :=
         [ mkQuestionOption "none" "কোনো জরুরি তহবিল নেই" 1;
           mkQuestionOption "partial" "৩ মাসের খরচের সমান" 2;
           mkQuestionOption "adequate" "৬ মাসের খরচের সমান" 3;
           mkQuestionOption "excellent" "১ বছরের খরচের সমান" 4 ] |};
    {| id := "q8";
       question := "বিনিয়োগে ক্ষতির ব্যাপারে আপনার মনোভাব কী?";
       options :=
         [ mkQuestionOption "very_conservative"
             "কোনো ক্ষতি সহ্য করতে পারি না" 1;
           mkQuestionOption "conservative"
             "সামান্য ক্ষতি সহ্য করতে পারি" 2;
           mkQuestionOption "moderate" "মাঝারি ক্ষতি সহ্য করতে পারি" 3;
           mkQuestionOption "aggressive" "বেশি ক্ষতি সহ্য করতে পারি" 4 ] |} ].

(** The body of the [forEach] of [calculateRiskScore]; the state is
    [totalScore] and [assessmentAnswers]. *)
Definition scoreQuestion
    (answers : gmap string string)
    (st : Z * list RiskAssessmentAnswer) (q : Question)
    : Z * list RiskAssessmentAnswer :=
  let '(totalScore, assessmentAnswers) := st in
  match answers !! id q with
  | Some selectedAnswer =>
      if JS.truthy selectedAnswer then
        match
          List.find (fun opt => String.eqb (opt_value opt) selectedAnswer)
            (options q)
        with
        | Some option =>
            ((totalScore + opt_score option)%Z,
             assessmentAnswers ++
             [ {| questionId := id q;
                  answer := selectedAnswer;
                  answer_score := opt_score option |} ])
        | None => st
        end
      else st
  | None => st
  end.

(** [maxScore], and the tolerance chosen from [scorePercentage]. *)
Definition maxScore : Z := Z.of_nat (length riskQuestions) * 4.

Definition toleranceOf (scorePercentage : Q) : RiskTolerance :=
  if JS.leb scorePercentage 40 then CONSERVATIVE
  else if JS.leb scorePercentage 70 then MODERATE
  else AGGRESSIVE.

(** [calculateRiskScore] on the [answers] state of the screen.  It returns
    the assessment handed to [setRiskAssessment] and the percentage handed
    to [showResults]; [user] is the id of the signed-in user, if any, and
    [now] the reading of the clock.  [maxScore] is the constant 32, so the
    quotient is a finite number. *)
Definition calculateRiskScore
    (user : option string) (now : Z) (answers : gmap string string)
    : RiskAssessment * Q :=
  let '(totalScore, assessmentAnswers) :=
    fold_left (scoreQuestion answers) riskQuestions (0%Z, []) in
  let scorePercentage :=
    (inject_Z totalScore / inject_Z maxScore * 100)%Q in
  let riskTolerance := toleranceOf scorePercentage in
  ({| userId := default EmptyString user;
      score := totalScore;
      tolerance := riskTolerance;
      answers := assessmentAnswers;
      completedAt := now |},
   scorePercentage).

(** The state of the screen: [currentQuestion] and [answers]. *)
Record ScreenState : Type := mkScreenState {
  currentQuestion : Z;
  screen_answers : gmap string string;
}.

Definition initialState : ScreenState :=
  {| currentQuestion := 0; screen_answers := ∅ |}.

(** [riskQuestions[currentQuestion]]; [None] stands for [undefined]. *)
Definition currentQ (st : ScreenState) : option Question :=
  if (currentQuestion st <? 0)%Z then None
  else riskQuestions !! Z.to_nat (currentQuestion st).

Definition handleAnswer
    (questionId answer : string) (st : ScreenState) : ScreenState :=
  {| currentQuestion := currentQuestion st;
     screen_answers := <[questionId := answer]> (screen_answers st) |}.

(** [handleNext] moves to the next question or, on the last one, calls
    [calculateRiskScore]; the second component is what that call returns. *)
Definition handleNext
    (user : option string) (now : Z) (st : ScreenState)
    : ScreenState * option (RiskAssessment * Q) :=
  if (currentQuestion st <? Z.of_nat (length riskQuestions) - 1)%Z then
    ({| currentQuestion := currentQuestion st + 1;
        screen_answers := screen_answers st |}, None)
  else (st, Some (calculateRiskScore user now (screen_answers st))).

Definition handlePrevious (st : ScreenState) : ScreenState :=
  if (0 <? currentQuestion st)%Z then
    {| currentQuestion := currentQuestion st - 1;
       screen_answers := screen_answers st |}
  else st.

(** [isAnswered]: [answers[currentQ.id] !== undefined]. *)
Definition isAnswered (st : ScreenState) : bool :=
  match currentQ st with
  | Some q => bool_decide (is_Some (screen_answers st !! id q))
  | None => false
  end.

(** What the user can do on the screen: touch the i-th option shown, press
    the next button or press the previous button. *)
Inductive Event : Type :=
| TouchOption (i : nat)
| PressNext
| PressPrevious.

(** The handlers as the screen wires them: an option calls
    [handleAnswer(currentQ.id, option.value)], the next button is disabled
    unless [isAnswered], the previous button is shown only when
    [currentQuestion > 0]. *)
Definition dispatch
    (user : option string) (now : Z) (st : ScreenState) (e : Event)
    : ScreenState * option (RiskAssessment * Q) :=
  match e with
  | TouchOption i =>
      match currentQ st with
      | Some q =>
          match options q !! i with
          | Some opt => (handleAnswer (id q) (opt_value opt) st, None)
          | None => (st, None)
          end
      | None => (st, None)
      end
  | PressNext => if isAnswered st then handleNext user now st else (st, None)
  | PressPrevious =>
      if (0 <? currentQuestion st)%Z then (handlePrevious st, None)
      else (st, None)
  end.

(** A session: the state after the events, and the results computed on the
    way, the last one first. *)
Fixpoint session
    (user : option string) (now : Z) (events : list Event)
    (st : ScreenState) (results : list (RiskAssessment * Q))
    : ScreenState * list (RiskAssessment * Q) :=
  match events with
  | [] => (st, results)
  | e :: events' =>
      let '(st', result) := dispatch user now st e in
      session user now events' st'
        (match result with
         | Some r => r :: results
         | None => results
         end)
  end.

End RiskAssessmentScreen.

(** ** utils/securityValidator.ts *)

(** A string is the list of its UTF-16 code units.  [RegExp.prototype.test]
    is modelled for the patterns the validator uses: a character class
    searched for anywhere in the string ([existsb]), and patterns anchored
    at both ends, built from classes, concatenation and repetition, for
    which [test] is membership of the whole string in the language of the
    pattern, decided here with derivatives. *)
Module RegExp.

Inductive regex : Type :=
| Void
| Eps
| Chars (p : N -> bool)
| Cat (r1 r2 : regex)
| Alt (r1 r2 : regex)
| Star (r : regex).

(** [r+], [r{n}] and [r{n,}]. *)
Definition Plus (r : regex) : regex := Cat r (Star r).

Fixpoint Times (n : nat) (r : regex) : regex :=
  match n with
  | O => Eps
  | S n' => Cat r (Times n' r)
  end.

Definition AtLeast (n : nat) (r : regex) : regex := Cat (Times n r) (Star r).

Fixpoint nullable (r : regex) : bool :=
  match r with
  | Void => false
  | Eps => true
  | Chars _ => false
  | Cat r1 r2 => nullable r1 && nullable r2
  | Alt r1 r2 => nullable r1 || nullable r2
  | Star _ => true
  end.

Fixpoint deriv (u : N) (r : regex) : regex :=
  match r with
  | Void => Void
  | Eps => Void
  | Chars p => if p u then Eps else Void
  | Cat r1 r2 =>
      if nullable r1 then Alt (Cat (deriv u r1) r2) (deriv u r2)
      else Cat (deriv u r1) r2
  | Alt r1 r2 => Alt (deriv u r1) (deriv u r2)
  | Star r' => Cat (deriv u r') (Star r')
  end.

(** [/^r$/.test(s)]. *)
Definition test (r : regex) (s : list N) : bool :=
  nullable (fold_left (fun r' u => deriv u r') s r).

(** The code unit of an ASCII character, and the code units of a string of
    ASCII characters. *)
Definition code (c : ascii) : N := N_of_ascii c.

Definition units (s : string) : list N :=
  List.map N_of_ascii (String.list_ascii_of_string s).

(** The class [[lo-hi]] and the class of the characters of [chars]. *)
Definition range (lo hi : ascii) (u : N) : bool :=
  (code lo <=? u)%N && (u <=? code hi)%N.

Definition oneOf (chars : string) (u : N) : bool :=
  existsb (N.eqb u) (units chars).

Definition char (c : ascii) (u : N) : bool := (u =? code c)%N.

(** The double quote, U+0022. *)
Definition quote : N := 34.

End RegExp.

Module SecurityValidator.

Import RegExp.

Definition upper (u : N) : bool := range "A" "Z" u.
Definition lower (u : N) : bool := range "a" "z" u.
Definition digit (u : N) : bool := range "0" "9" u.

(** The class of special characters; the double quote is among them. *)
Definition special (u : N) : bool :=
  oneOf "!@#$%^&*(),.?:{}|<>" u || (u =? quote)%N.

Definition validatePassword (password : list N) : bool :=
  let hasMinLength := (8 <=? length password)%nat in
  let hasUppercase := existsb upper password in
  let hasLowercase := existsb lower password in
  let hasNumber := existsb digit password in
  let hasSpecialChar := existsb special password in
  hasMinLength && hasUppercase && hasLowercase && hasNumber
  && hasSpecialChar.

(** [^[a-zA-Z0-9._%+-]+@[a-zA-Z0-9.-]+\.[a-zA-Z]{2,}$]. *)
Definition localChar (u : N) : bool :=
  lower u || upper u || digit u || oneOf "._%+-" u.

Definition domainChar (u : N) : bool :=
  lower u || upper u || digit u || oneOf ".-" u.

Definition letter (u : N) : bool := lower u || upper u.

Definition emailRegex : regex :=
  Cat (Plus (Chars localChar))
    (Cat (Chars (char "@"))
       (Cat (Plus (Chars domainChar))
          (Cat (Chars (char ".")) (AtLeast 2 (Chars letter))))).

Definition validateEmail (email : list N) : bool := test emailRegex email.

(** One global replacement of a character by a string. *)
Definition replaceAll (c : N) (by_ : list N) (s : list N) : list N :=
  flat_map (fun u => if (u =? c)%N then by_ else [u]) s.

(** [sanitizeInput].  Its argument is a string, so the branch for another
    type of value is not taken. *)
Definition sanitizeInput (input : list N) : list N :=
  replaceAll (code "/") (units "&#x2F;")
    (replaceAll (code "'") (units "&#x27;")
       (replaceAll quote (units "&quot;")
          (replaceAll (code ">") (units "&gt;")
             (replaceAll (code "<") (units "&lt;")
                (replaceAll (code "&") (units "&amp;") input))))).

Definition calculatePasswordStrength (password : list N) : Z :=
  let score := 0%Z in
  let score :=
    if (8 <=? length password)%nat then (score + 1)%Z else score in
  let score :=
    if (12 <=? length password)%nat then (score + 1)%Z else score in
  let score := if existsb upper password then (score + 1)%Z else score in
  let score := if existsb lower password then (score + 1)%Z else score in
  let score := if existsb digit password then (score + 1)%Z else score in
  let score := if existsb special password then (score + 1)%Z else score in
  score.

Definition isStrongPassword (password : list N) : bool :=
  (4 <=? calculatePasswordStrength password)%Z.

(** [^[0-9a-f]{8}-[0-9a-f]{4}-4[0-9a-f]{3}-[89ab][0-9a-f]{3}-[0-9a-f]{12}$]
    with the flag [i]: a class of letters holds both cases. *)
Definition hex (u : N) : bool :=
  digit u || range "a" "f" u || range "A" "F" u.

Definition variant (u : N) : bool := oneOf "89abAB" u.

Definition uuidRegex : regex :=
  Cat (Times 8 (Chars hex))
    (Cat (Chars (char "-"))
       (Cat (Times 4 (Chars hex))
          (Cat (Chars (char "-"))
             (Cat (Chars (char "4"))
                (Cat (Times 3 (Chars hex))
                   (Cat (Chars (char "-"))
                      (Cat (Chars variant)
                         (Cat (Times 3 (Chars hex))
                            (Cat (Chars (char "-"))
                               (Times 12 (Chars hex))))))))))).

Definition isValidUUID (uuid : list N) : bool := test uuidRegex uuid.

End SecurityValidator.

(** ** The investment store ([useInvestmentStore])

    The state of the store and its actions, each one a function from the
    state to the state the action leaves.  An action first sets
    [isLoading] and clears [error] ([begin]), then sets its result; no
    statement of a [try] block raises, so that no [catch] block runs.  Of
    an [Investment] the fields of scalar type are kept; the actions read
    [id] only. *)

Module InvestmentStore.

Record Investment : Type := mkInvestment {
  inv_id : string;
  inv_userId : string;
  inv_name : string;
  inv_type : InvestmentType;
  inv_amount : Q;
  inv_currentValue : Q;
  inv_expectedReturn : Q;
  isActive : bool;
}.

Record InvestmentState : Type := mkInvestmentState {
  investments : list Investment;
  recommendations : list InvestmentRecommendation;
  isLoading : bool;
  error : option string;
}.

Definition initialState : InvestmentState :=
  {| investments := []; recommendations := [];
     isLoading := false; error := None |}.

(** [set({ isLoading: true, error: null })]. *)
Definition begin (state : InvestmentState) : InvestmentState :=
  {| investments := investments state;
     recommendations := recommendations state;
     isLoading := true; error := None |}.

Definition addInvestment
    (investment : Investment) (state : InvestmentState) : InvestmentState :=
  let state := begin state in
  {| investments := investments state ++ [investment];
     recommendations := recommendations state;
     isLoading := false; error := error state |}.

Definition updateInvestment
    (updatedInvestment : Investment) (state : InvestmentState)
    : InvestmentState :=
  let state := begin state in
  {| investments :=
       List.map
         (fun inv =>
            if bool_decide (inv_id inv = inv_id updatedInvestment)
            then updatedInvestment else inv)
         (investments state);
     recommendations := recommendations state;
     isLoading := false; error := error state |}.

Definition deleteInvestment
    (id : string) (state : InvestmentState) : InvestmentState :=
  let state := begin state in
  {| investments := filter (fun inv => inv_id inv <> id) (investments state);
     recommendations := recommendations state;
     isLoading := false; error := error state |}.

(** The user [generateRecommendations] hands to the service, with the
    fields the service reads. *)
Definition dummyUser : User := {| user_id := "user123"; age := 30 |}.

Definition generateRecommendations
    (clock : nat -> Z) (profile : FinancialProfile)
    (riskAssessment : RiskAssessment) (state : InvestmentState)
    : InvestmentState :=
  let state := begin state in
  let recommendations :=
    InvestmentRecommendationService.generateRecommendations clock dummyUser
      profile riskAssessment in
  {| investments := investments state;
     recommendations := recommendations;
     isLoading := false; error := error state |}.

End InvestmentStore.

(** ** The formulas of the specification *)

Module Reference.

Local Open Scope Q_scope.

Section Recurrence.
Variables (initialAmount annualReturnPercent monthlyContribution : Q).

(** [totalInvestment] after [n] years. *)
Fixpoint totalInvestmentAfter (n : nat) : Q :=
  match n with
  | O => initialAmount
  | S n' => totalInvestmentAfter n' + monthlyContribution * 12
  end.

(** [currentValue] after [n] years. *)
Fixpoint currentValueAfter (n : nat) : Q :=
  match n with
  | O => initialAmount
  | S n' =>
      (currentValueAfter n' + monthlyContribution * 12)
      * (1 + annualReturnPercent / 100)
  end.

(** The record of year [n]. *)
Definition record (n : nat) : YearlyEntry :=
  {| year := Z.of_nat n;
     investment := totalInvestmentAfter n;
     value := JS.Math_round (currentValueAfter n);
     return_ :=
       JS.Math_round (currentValueAfter n - totalInvestmentAfter n) |}.

(** The records of years 1 to [years]. *)
Definition breakdown (years : nat) : list YearlyEntry :=
  List.map record (seq 1 years).

End Recurrence.

(** The recommended amount: the percentage is the allocation bucket of the
    category, 10 by default; a bucket the allocation lacks counts as 0. *)
Definition bucketFor (c : Category) (allocation : gmap string Q) : Q :=
  match c with
  | government => default 0 (allocation !! "government")
  | bank => default 0 (allocation !! "bank")
  | stock | mutual_fund => default 0 (allocation !! "stocks")
  | bond | sanchayapatra => 10
  end.

Definition recommendedAmountByBucket
    (instrument : BangladeshInvestmentOption) (availableAmount : Q)
    (allocation : gmap string Q) : Q :=
  JS.Math_max
    (availableAmount * bucketFor (category instrument) allocation / 100)
    (minInvestment instrument).

End Reference.

(** ** Notions used in the statements *)

Module Notions.

Import InvestmentRecommendationService RiskAssessmentScreen.
Local Open Scope Q_scope.

(** The value of [stockAllocation] after the [switch]. *)
Definition stocksOf (age : Q) (t : RiskTolerance) : Q :=
  match t with
  | CONSERVATIVE => JS.Math_max (100 - age - 20) 10
  | AGGRESSIVE => JS.Math_min (100 - age + 20) 80
  | MODERATE => 100 - age
  end.

(** The recommendation [r] was pushed for the instrument [inv]. *)
Definition pushedFor
    (user : User) (p : FinancialProfile) (ra : RiskAssessment)
    (inv : BangladeshInvestmentOption) (r : InvestmentRecommendation)
    : Prop :=
  investmentType r = type inv /\
  rec_riskLevel r = riskLevel inv /\
  suitabilityScore r = calculateSuitabilityScore inv user p ra /\
  recommendedAmount r =
    calculateRecommendedAmount inv (monthlyIncome p - monthlyExpenses p)
      (calculateAssetAllocation (age user) (tolerance ra)) /\
  (60 <= suitabilityScore r)%Z.

(** The state of the loop when [n] iterations are done, by the recurrence
    of the specification. *)
Definition stateAfter
    (amount annualReturn monthlyContribution : Q) (n : nat) : LoopState :=
  {| loop_year := Z.of_nat n + 1;
     loop_totalInvestment :=
       Reference.totalInvestmentAfter amount monthlyContribution n;
     loop_currentValue :=
       Reference.currentValueAfter amount annualReturn monthlyContribution n;
     loop_yearlyBreakdown :=
       Reference.breakdown amount annualReturn monthlyContribution n |}.

(** A full answer set: every question has one of its options selected. *)
Definition answered (answers : gmap string string) (q : Question) : bool :=
  match answers !! id q with
  | Some selected =>
      existsb (fun opt => String.eqb (opt_value opt) selected) (options q)
  | None => false
  end.

Definition fullAnswerSet (answers : gmap string string) : bool :=
  forallb (answered answers) riskQuestions.

(** The order of the tiers. *)
Definition tier (t : RiskTolerance) : Z :=
  match t with
  | CONSERVATIVE => 0
  | MODERATE => 1
  | AGGRESSIVE => 2
  end.

(** What one question adds to [totalScore], and the total. *)
Definition contribution (answers : gmap string string) (q : Question) : Z :=
  fst (scoreQuestion answers (0%Z, []) q).

Definition totalOf (answers : gmap string string) : Z :=
  fst (fold_left (scoreQuestion answers) riskQuestions (0%Z, [])).

(** A question whose options have a name and a score from 1 to 4. *)
Definition wellFormed (q : Question) : Prop :=
  Forall
    (fun opt =>
       (1 <= opt_score opt <= 4)%Z /\ JS.truthy (opt_value opt) = true)
    (options q).

(** The sum of the recommended amounts, and of the expected returns weighted
    by them. *)
Definition amountSum (recs : list InvestmentRecommendation) : Q :=
  foldr (fun r acc => recommendedAmount r + acc) 0 recs.

Definition returnSum (recs : list InvestmentRecommendation) : Q :=
  foldr (fun r acc => rec_expectedReturn r * recommendedAmount r + acc) 0
    recs.

(** The invariant of the screen: [currentQuestion] is the index of a
    question, the questions before it are answered, and an answer recorded
    for a question is one of its options. *)
Definition screenInvariant (st : ScreenState) : Prop :=
  (0 <= currentQuestion st < Z.of_nat (length riskQuestions))%Z /\
  (forall (k : nat) (q : Question),
     (Z.of_nat k < currentQuestion st)%Z ->
     riskQuestions !! k = Some q ->
     is_Some (screen_answers st !! id q)) /\
  (forall q : Question,
     q ∈ riskQuestions ->
     is_Some (screen_answers st !! id q) ->
     answered (screen_answers st) q = true).

(** The strings a pattern matches. *)
Inductive Matches : RegExp.regex -> list N -> Prop :=
| MatchesEps : Matches RegExp.Eps []
| MatchesChars (p : N -> bool) (u : N) :
    p u = true -> Matches (RegExp.Chars p) [u]
| MatchesCat (r1 r2 : RegExp.regex) (s1 s2 : list N) :
    Matches r1 s1 -> Matches r2 s2 -> Matches (RegExp.Cat r1 r2) (s1 ++ s2)
| MatchesAltL (r1 r2 : RegExp.regex) (s : list N) :
    Matches r1 s -> Matches (RegExp.Alt r1 r2) s
| MatchesAltR (r1 r2 : RegExp.regex) (s : list N) :
    Matches r2 s -> Matches (RegExp.Alt r1 r2) s
| MatchesStarNil (r : RegExp.regex) : Matches (RegExp.Star r) []
| MatchesStarApp (r : RegExp.regex) (s1 s2 : list N) :
    Matches r s1 -> Matches (RegExp.Star r) s2 ->
    Matches (RegExp.Star r) (s1 ++ s2).

(** What [sanitizeInput] writes for one character. *)
Definition escape (u : N) : list N :=
  if (u =? RegExp.code "&")%N then RegExp.units "&amp;"
  else if (u =? RegExp.code "<")%N then RegExp.units "&lt;"
  else if (u =? RegExp.code ">")%N then RegExp.units "&gt;"
  else if (u =? RegExp.quote)%N then RegExp.units "&quot;"
  else if (u =? RegExp.code "'")%N then RegExp.units "&#x27;"
  else if (u =? RegExp.code "/")%N then RegExp.units "&#x2F;"
  else [u].

(** The six characters [sanitizeInput] replaces, and the five of them that
    are not the ampersand. *)
Definition replaced (u : N) : bool :=
  RegExp.oneOf "&<>'/" u || (u =? RegExp.quote)%N.

Definition markup (u : N) : bool :=
  RegExp.oneOf "<>'/" u || (u =? RegExp.quote)%N.

(** The classes of the 36 characters of a UUID of version 4. *)
Definition uuidShape : list (N -> bool) :=
  replicate 8 SecurityValidator.hex ++ [RegExp.char "-"]
  ++ replicate 4 SecurityValidator.hex ++ [RegExp.char "-"]
  ++ [RegExp.char "4"] ++ replicate 3 SecurityValidator.hex
  ++ [RegExp.char "-"]
  ++ [SecurityValidator.variant] ++ replicate 3 SecurityValidator.hex
  ++ [RegExp.char "-"]
  ++ replicate 12 SecurityValidator.hex.


End Notions.

(** ** Sample inputs *)

Module Samples.

(** The system clock: one millisecond between two readings. *)
Definition clock (n : nat) : Z := 1700000000000 + Z.of_nat n.

(** A conservative investor of 30 who spends more than they earn. *)
Definition user : User := {| user_id := "user123"; age := 30 |}.

Definition profile : FinancialProfile :=
  {| monthlyIncome := 20000; monthlyExpenses := 30000;
     currentSavings := 200000; dependents := 0 |}.

Definition assessment : RiskAssessment :=
  {| userId := "user123"; score := 10; tolerance := CONSERVATIVE;
     answers := []; completedAt := 1700000000000 |}.

(** A moderate investor of 100 with 100000 to spare each month. *)
Definition centenarian : User := {| user_id := "user123"; age := 100 |}.

Definition comfortable : FinancialProfile :=
  {| monthlyIncome := 150000; monthlyExpenses := 50000;
     currentSavings := 400000; dependents := 0 |}.

Definition moderate : RiskAssessment :=
  {| userId := "user123"; score := 20; tolerance := MODERATE;
     answers := []; completedAt := 1700000000000 |}.

(** Income but neither expenses nor savings. *)
Definition idle : FinancialProfile :=
  {| monthlyIncome := 50000; monthlyExpenses := 0;
     currentSavings := 0; dependents := 0 |}.

(** No expenses, and savings. *)
Definition thrifty : FinancialProfile :=
  {| monthlyIncome := 50000; monthlyExpenses := 0;
     currentSavings := 100000; dependents := 0 |}.

(** A small income, three dependents and no savings. *)
Definition stretched : FinancialProfile :=
  {| monthlyIncome := 20000; monthlyExpenses := 19000;
     currentSavings := 0; dependents := 3 |}.

(** An aggressive investor of 25. *)
Definition young : User := {| user_id := "user123"; age := 25 |}.

Definition aggressive : RiskAssessment :=
  {| userId := "user123"; score := 30; tolerance := AGGRESSIVE;
     answers := []; completedAt := 1700000000000 |}.

(** A full answer set of the risk questionnaire, and the two extreme
    ones. *)
Definition answers : gmap string string :=
  {[ "q1" := "25to35"; "q2" := "limited"; "q3" := "balanced_growth";
     "q4" := "medium_long"; "q5" := "hold"; "q6" := "moderate";
     "q7" := "partial"; "q8" := "conservative" ]}.

Definition lowest : gmap string string :=
  {[ "q1" := "over50"; "q2" := "none"; "q3" := "capital_preservation";
     "q4" := "short"; "q5" := "sell_immediately"; "q6" := "very_low";
     "q7" := "none"; "q8" := "very_conservative" ]}.

Definition highest : gmap string string :=
  {[ "q1" := "under25"; "q2" := "extensive"; "q3" := "aggressive_growth";
     "q4" := "long"; "q5" := "buy_more"; "q6" := "high";
     "q7" := "excellent"; "q8" := "aggressive" ]}.

End Samples.

(** * Properties *)

(** ** Arithmetic helpers *)

Module JSFacts.

Local Open Scope Q_scope.

Lemma max_cases (a b : Q) :
  (a < b /\ JS.Math_max a b == b) \/ (b <= a /\ JS.Math_max a b == a).
Proof. unfold JS.Math_max. apply Q.max_spec. Qed.

Lemma min_cases (a b : Q) :
  (a < b /\ JS.Math_min a b == a) \/ (b <= a /\ JS.Math_min a b == b).
Proof. unfold JS.Math_min. apply Q.min_spec. Qed.

Lemma max_ge_r (a b : Q) : b <= JS.Math_max a b.
Proof. destruct (max_cases a b) as [[? E] | [? E]]; rewrite E; lra. Qed.

Lemma min_le_r (a b : Q) : JS.Math_min a b <= b.
Proof. destruct (min_cases a b) as [[? E] | [? E]]; rewrite E; lra. Qed.

Lemma min_le_l (a b : Q) : JS.Math_min a b <= a.
Proof. destruct (min_cases a b) as [[? E] | [? E]]; rewrite E; lra. Qed.

Lemma ltb_lt (a b : Q) : JS.ltb a b = true <-> a < b.
Proof.
  unfold JS.ltb. rewrite negb_true_iff.
  destruct (Qle_bool b a) eqn:E.
  - apply Qle_bool_iff in E. split; [discriminate | lra].
  - split; [intros _ | reflexivity].
    apply Qnot_le_lt. intros H. apply Qle_bool_iff in H. congruence.
Qed.

Lemma geb_ge (a b : Q) : JS.geb a b = true <-> b <= a.
Proof. unfold JS.geb. apply Qle_bool_iff. Qed.

Lemma leb_le (a b : Q) : JS.leb a b = true <-> a <= b.
Proof. unfold JS.leb. apply Qle_bool_iff. Qed.

Lemma leb_gt (a b : Q) : JS.leb a b = false <-> b < a.
Proof.
  unfold JS.leb. destruct (Qle_bool a b) eqn:E.
  - apply Qle_bool_iff in E. split; [discriminate | lra].
  - split; [intros _ | reflexivity].
    apply Qnot_le_lt. intros H. apply Qle_bool_iff in H. congruence.
Qed.




End JSFacts.

(** ** The allocation calculator *)

Module Allocation.

Import InvestmentRecommendationService Notions.
Local Open Scope Q_scope.

Lemma lookup_stocks (age : Q) (t : RiskTolerance) :
  calculateAssetAllocation age t !! "stocks" = Some (stocksOf age t).
Proof. destruct t; reflexivity. Qed.

Lemma lookup_bonds (age : Q) (t : RiskTolerance) :
  calculateAssetAllocation age t !! "bonds" = Some (100 - stocksOf age t).
Proof. destruct t; reflexivity. Qed.

Lemma lookup_government (age : Q) (t : RiskTolerance) :
  calculateAssetAllocation age t !! "government"
  = Some (JS.Math_min ((100 - stocksOf age t) * 0.6) 40).
Proof. destruct t; reflexivity. Qed.

Lemma lookup_bank (age : Q) (t : RiskTolerance) :
  calculateAssetAllocation age t !! "bank"
  = Some (JS.Math_min ((100 - stocksOf age t) * 0.4) 30).
Proof. destruct t; reflexivity. Qed.

Lemma stocks_range (age : Q) (t : RiskTolerance) :
  18 <= age <= 100 ->
  match t with
  | CONSERVATIVE => 10 <= stocksOf age t <= 62
  | MODERATE => 0 <= stocksOf age t <= 82
  | AGGRESSIVE => 20 <= stocksOf age t <= 80
  end.
Proof.
  intros [Hlo Hhi]. destruct t; simpl.
  - destruct (JSFacts.max_cases (100 - age - 20) 10) as [[? E] | [? E]];
      rewrite E; lra.
  - lra.
  - destruct (JSFacts.min_cases (100 - age + 20) 80) as [[? E] | [? E]];
      rewrite E; lra.
Qed.

(** C1, as stated, fails for a moderate investor of 18: the allocation
    holds 82 percent of stocks, above the bound of 80.  (At 100 a moderate
    investor gets 0 percent, below the bound of 10.) *)
Lemma moderate_stocks_outside_10_80 :
  18 <= 18 <= 100 /\
  calculateAssetAllocation 18 MODERATE !! "stocks" = Some (100 - 18) /\
  ~ (100 - 18 <= 80) /\
  calculateAssetAllocation 100 MODERATE !! "stocks" = Some (100 - 100) /\
  ~ (10 <= 100 - 100).
Proof. repeat split; try reflexivity; lra. Qed.

(** C1 (amended): for every age in [18, 100] the allocation has
    [stocks = max(100 - age - 20, 10)] for a conservative investor,
    [min(100 - age + 20, 80)] for an aggressive one and [100 - age] for a
    moderate one; stocks lie in [10, 80] for conservative and aggressive
    investors and in [0, 82] for moderate ones; [government <= 40] and
    [bank <= 30] for every tolerance. *)
Theorem allocation_bounds (age : Q) (t : RiskTolerance) :
  18 <= age <= 100 ->
  exists stocks government bank : Q,
    calculateAssetAllocation age t !! "stocks" = Some stocks /\
    calculateAssetAllocation age t !! "government" = Some government /\
    calculateAssetAllocation age t !! "bank" = Some bank /\
    stocks =
      match t with
      | CONSERVATIVE => JS.Math_max (100 - age - 20) 10
      | AGGRESSIVE => JS.Math_min (100 - age + 20) 80
      | MODERATE => 100 - age
      end /\
    (t <> MODERATE -> 10 <= stocks <= 80) /\
    (t = MODERATE -> 0 <= stocks <= 82) /\
    government <= 40 /\
    bank <= 30.
Proof.
  intros Hage.
  exists (stocksOf age t),
    (JS.Math_min ((100 - stocksOf age t) * 0.6) 40),
    (JS.Math_min ((100 - stocksOf age t) * 0.4) 30).
  pose proof (stocks_range age t Hage) as Hr.
  split; [apply lookup_stocks |].
  split; [apply lookup_government |].
  split; [apply lookup_bank |].
  split; [destruct t; reflexivity |].
  split; [| split; [| split]].
  - intros Hne. destruct t; [lra | congruence | lra].
  - intros ->. exact Hr.
  - apply JSFacts.min_le_r.
  - apply JSFacts.min_le_r.
Qed.

Lemma allocation_bounds_witness :
  18 <= 35 <= 100 /\
  exists stocks government bank : Q,
    calculateAssetAllocation 35 CONSERVATIVE !! "stocks" = Some stocks /\
    calculateAssetAllocation 35 CONSERVATIVE !! "government"
    = Some government /\
    calculateAssetAllocation 35 CONSERVATIVE !! "bank" = Some bank /\
    stocks = JS.Math_max (100 - 35 - 20) 10 /\
    (CONSERVATIVE <> MODERATE -> 10 <= stocks <= 80) /\
    (CONSERVATIVE = MODERATE -> 0 <= stocks <= 82) /\
    government <= 40 /\
    bank <= 30.
Proof.
  assert (18 <= 35 <= 100) as H by lra.
  split; [exact H | exact (allocation_bounds 35 CONSERVATIVE H)].
Defined.

(** The four buckets need not add up to 100: a moderate investor of 100
    gets no stocks, 100 of bonds, 40 of government and 30 of bank. *)
Example buckets_of_moderate_100 :
  Qred <$> calculateAssetAllocation 100 MODERATE
  = {[ "stocks" := 0; "bonds" := 100; "government" := 40; "bank" := 30 ]}.
Proof. apply map_eq. intros k. vm_compute. reflexivity. Qed.

(** C10: for every age and every risk tolerance, [bonds] is [100 - stocks]
    and [stocks + bonds] is 100; [government + bank] never exceeds [bonds],
    and falls short of it when a cap applies, as for a moderate investor of
    100. *)
Theorem stocks_plus_bonds (age : Q) (t : RiskTolerance) :
  exists stocks bonds government bank : Q,
    calculateAssetAllocation age t !! "stocks" = Some stocks /\
    calculateAssetAllocation age t !! "bonds" = Some bonds /\
    calculateAssetAllocation age t !! "government" = Some government /\
    calculateAssetAllocation age t !! "bank" = Some bank /\
    bonds = 100 - stocks /\
    stocks + bonds == 100 /\
    government + bank <= bonds /\
    JS.Math_min ((100 - stocksOf 100 MODERATE) * 0.6) 40
    + JS.Math_min ((100 - stocksOf 100 MODERATE) * 0.4) 30
    < 100 - stocksOf 100 MODERATE.
Proof.
  exists (stocksOf age t), (100 - stocksOf age t),
    (JS.Math_min ((100 - stocksOf age t) * 0.6) 40),
    (JS.Math_min ((100 - stocksOf age t) * 0.4) 30).
  split; [apply lookup_stocks |].
  split; [apply lookup_bonds |].
  split; [apply lookup_government |].
  split; [apply lookup_bank |].
  split; [reflexivity |].
  split; [ring |].
  set (b := 100 - stocksOf age t).
  pose proof (JSFacts.min_le_l (b * 0.6) 40).
  pose proof (JSFacts.min_le_l (b * 0.4) 30).
  split; [lra | reflexivity].
Qed.

End Allocation.

(** ** The suitability scorer *)

Module Suitability.

Import InvestmentRecommendationService Notions.
Local Open Scope Z_scope.

(** Case analysis on every test of an [if] chain. *)
Ltac branches :=
  repeat match goal with
         | |- context [if ?b then _ else _] => destruct b
         end.

Lemma ageFactor_range (a : Q) (l : RiskLevel) : 10 <= ageFactor a l <= 25.
Proof. unfold ageFactor. branches; destruct l; lia. Qed.

Lemma riskToleranceFactor_range (t : RiskTolerance) (l : RiskLevel) :
  0 <= riskToleranceFactor t l <= 25.
Proof. destruct t, l; simpl; lia. Qed.

Lemma incomeFactor_range (i : Q) : 5 <= incomeFactor i <= 20.
Proof.
  unfold incomeFactor. branches; lia.
Qed.

Lemma savingsFactor_range (i e : Q) : 3 <= savingsFactor i e <= 15.
Proof.
  unfold savingsFactor. cbv zeta. branches; lia.
Qed.

Lemma dependentsFactor_range (d : Q) : 3 <= dependentsFactor d <= 10.
Proof.
  unfold dependentsFactor. branches; lia.
Qed.

Lemma emergencyFundFactor_range (s e : Q) :
  1 <= emergencyFundFactor s e <= 5.
Proof.
  unfold emergencyFundFactor. cbv zeta. branches; lia.
Qed.

(** With no expenses the quotient [currentSavings / monthlyExpenses] is
    plus Infinity, NaN or minus Infinity, by the sign of the savings. *)
Lemma div_by_zero (a b : Q) :
  (b == 0)%Q ->
  JS.div a b =
    if Qeq_bool a 0 then JS.NaN
    else if Qle_bool 0 a then JS.PosInfinity else JS.NegInfinity.
Proof.
  intros Hb. unfold JS.div. apply Qeq_eq_bool in Hb. rewrite Hb.
  reflexivity.
Qed.

Lemma emergencyFundFactor_no_expenses (s e : Q) :
  (e == 0)%Q ->
  emergencyFundFactor s e = if JS.ltb 0 s then 5 else 1.
Proof.
  intros He. unfold emergencyFundFactor. cbv zeta.
  rewrite (div_by_zero s e He). unfold JS.ltb.
  destruct (Qeq_bool s 0) eqn:E0.
  - apply Qeq_bool_eq in E0.
    assert (Qle_bool s 0 = true) as -> by (apply Qle_bool_iff; lra).
    reflexivity.
  - apply Qeq_bool_neq in E0.
    destruct (Qle_bool 0 s) eqn:E1.
    + apply Qle_bool_iff in E1.
      destruct (Qle_bool s 0) eqn:E2; [| reflexivity].
      apply Qle_bool_iff in E2. exfalso. apply E0. lra.
    + destruct (Qle_bool s 0) eqn:E2; [reflexivity |].
      exfalso.
      destruct (Qlt_le_dec s 0) as [H | H].
      * apply Qlt_le_weak, Qle_bool_iff in H. congruence.
      * apply Qle_bool_iff in H. congruence.
Qed.

Lemma savingsFactor_no_income (i e : Q) :
  (i == 0)%Q ->
  savingsFactor i e = if JS.ltb e 0 then 15 else 3.
Proof.
  intros Hi. unfold savingsFactor. cbv zeta.
  rewrite (div_by_zero (i - e) i Hi). unfold JS.ltb.
  destruct (Qeq_bool (i - e) 0) eqn:E0.
  - apply Qeq_bool_eq in E0.
    assert (Qle_bool 0 e = true) as -> by (apply Qle_bool_iff; lra).
    reflexivity.
  - apply Qeq_bool_neq in E0.
    destruct (Qle_bool 0 (i - e)) eqn:E1.
    + apply Qle_bool_iff in E1.
      destruct (Qle_bool 0 e) eqn:E2; [| reflexivity].
      apply Qle_bool_iff in E2. exfalso. apply E0. lra.
    + destruct (Qle_bool 0 e) eqn:E2; [reflexivity |].
      exfalso.
      destruct (Qlt_le_dec e 0) as [H | H].
      * assert (0 <= i - e)%Q as H' by lra.
        apply Qle_bool_iff in H'. congruence.
      * apply Qle_bool_iff in H. congruence.
Qed.

(** C8, as stated, fails for a profile with neither expenses nor savings:
    [0 / 0] is NaN, both comparisons are false and the emergency-fund
    addition is the 1-point tier, not the 5-point one.  The deposit pension
    scheme scores 20 + 25 + 15 + 15 + 10 + 1 = 86 for the sample investor. *)
Lemma emergency_fund_of_nothing_is_1 :
  exists inv : BangladeshInvestmentOption,
    getInvestmentDetails DPS = Some inv /\
    (monthlyExpenses Samples.idle == 0)%Q /\
    JS.div (currentSavings Samples.idle) (monthlyExpenses Samples.idle)
    = JS.NaN /\
    emergencyFundFactor (currentSavings Samples.idle)
      (monthlyExpenses Samples.idle) = 1 /\
    calculateSuitabilityScore inv Samples.user Samples.idle
      Samples.assessment = 86.
Proof. eexists. repeat split. Qed.

(** C8 (amended): [calculateSuitabilityScore] is total and its result is
    an integer in [0, 100] (in [22, 100] in fact), the sum of the six
    factors capped at 100, whatever the income and the expenses are.  With
    [monthlyExpenses = 0] the emergency-fund factor is the 5-point tier
    only when [currentSavings] is positive (the quotient is plus
    Infinity); with no savings (NaN) or negative savings it is the 1-point
    tier.  With [monthlyIncome = 0] the savings factor is 3, unless the
    expenses are negative. *)
Theorem suitability_score_range
    (investment : BangladeshInvestmentOption) (user : User)
    (p : FinancialProfile) (ra : RiskAssessment) :
  let s := calculateSuitabilityScore investment user p ra in
  0 <= s <= 100 /\
  22 <= s /\
  s = Z.min
        (ageFactor (age user) (riskLevel investment)
         + riskToleranceFactor (tolerance ra) (riskLevel investment)
         + incomeFactor (monthlyIncome p)
         + savingsFactor (monthlyIncome p) (monthlyExpenses p)
         + dependentsFactor (dependents p)
         + emergencyFundFactor (currentSavings p) (monthlyExpenses p))
        100 /\
  ((monthlyExpenses p == 0)%Q ->
   emergencyFundFactor (currentSavings p) (monthlyExpenses p)
   = if JS.ltb 0 (currentSavings p) then 5 else 1) /\
  ((monthlyIncome p == 0)%Q ->
   savingsFactor (monthlyIncome p) (monthlyExpenses p)
   = if JS.ltb (monthlyExpenses p) 0 then 15 else 3).
Proof.
  intros s. subst s. unfold calculateSuitabilityScore. cbv zeta.
  pose proof (ageFactor_range (age user) (riskLevel investment)).
  pose proof
    (riskToleranceFactor_range (tolerance ra) (riskLevel investment)).
  pose proof (incomeFactor_range (monthlyIncome p)).
  pose proof (savingsFactor_range (monthlyIncome p) (monthlyExpenses p)).
  pose proof (dependentsFactor_range (dependents p)).
  pose proof
    (emergencyFundFactor_range (currentSavings p) (monthlyExpenses p)).
  repeat split; try lia.
  - apply emergencyFundFactor_no_expenses.
  - apply savingsFactor_no_income.
Qed.

(** With no expenses and some savings the quotient is plus Infinity and the
    factor is 5. *)
Lemma suitability_score_range_witness :
  exists inv : BangladeshInvestmentOption,
    getInvestmentDetails DPS = Some inv /\
    (monthlyExpenses Samples.thrifty == 0)%Q /\
    emergencyFundFactor (currentSavings Samples.thrifty)
      (monthlyExpenses Samples.thrifty) = 5 /\
    calculateSuitabilityScore inv Samples.user Samples.thrifty
      Samples.assessment = 90 /\
    0 <= calculateSuitabilityScore inv Samples.user Samples.thrifty
           Samples.assessment <= 100.
Proof.
  eexists. split; [reflexivity |].
  assert (monthlyExpenses Samples.thrifty == 0)%Q as H0 by reflexivity.
  split; [exact H0 |].
  match goal with
  | |- context [calculateSuitabilityScore ?inv _ _ _] =>
      destruct (suitability_score_range inv Samples.user Samples.thrifty
                  Samples.assessment) as (Hr & _ & _ & He & _)
  end.
  split; [rewrite (He H0); reflexivity |].
  split; [reflexivity | exact Hr].
Defined.

End Suitability.

(** ** [Array.prototype.sort] *)

Module SortFacts.

Section Sort.
Context {A : Type} (compare : A -> A -> Z).

Hypothesis compare_total :
  forall x y, (0 < compare x y)%Z -> (compare y x <= 0)%Z.

Lemma insert_perm (x : A) (l : list A) :
  Permutation (JS.insert compare x l) (x :: l).
Proof.
  induction l as [| y l IH]; simpl.
  - reflexivity.
  - destruct (compare x y <=? 0)%Z.
    + reflexivity.
    + rewrite IH. apply perm_swap.
Qed.

Lemma sort_perm (l : list A) : Permutation (JS.sort compare l) l.
Proof.
  induction l as [| x l IH]; simpl.
  - reflexivity.
  - rewrite insert_perm. now apply perm_skip.
Qed.

Lemma insert_hd (x y : A) (l : list A) :
  JS.before compare y x -> HdRel (JS.before compare) y l -> HdRel (JS.before compare) y (JS.insert compare x l).
Proof.
  intros Hyx Hl. destruct l as [| z l]; simpl.
  - now constructor.
  - destruct (compare x z <=? 0)%Z; constructor; trivial.
    now inversion Hl.
Qed.

Lemma insert_sorted (x : A) (l : list A) :
  Sorted (JS.before compare) l -> Sorted (JS.before compare) (JS.insert compare x l).
Proof.
  induction 1 as [| y l Hs IH Hhd]; simpl.
  - repeat constructor.
  - destruct (compare x y <=? 0)%Z eqn:E.
    + apply Z.leb_le in E. repeat constructor; assumption.
    + apply Z.leb_gt in E. constructor; [exact IH |].
      apply insert_hd; [| exact Hhd].
      now apply compare_total.
Qed.

Lemma sort_sorted (l : list A) :
  Sorted (JS.before compare) (JS.sort compare l).
Proof.
  induction l as [| x l IH]; simpl.
  - constructor.
  - now apply insert_sorted.
Qed.
End Sort.

End SortFacts.

(** ** The recommendation generator *)

Module Recommendations.

Import InvestmentRecommendationService Notions.
Local Open Scope Q_scope.

Section Run.
Variables (clock : nat -> Z) (user : User) (p : FinancialProfile)
          (ra : RiskAssessment).

Let step :=
  visit clock user p ra (monthlyIncome p - monthlyExpenses p)
    (calculateAssetAllocation (age user) (tolerance ra)).

Let candidates :=
  filterByRiskTolerance bangladeshInvestments (tolerance ra).

Lemma step_pushes (st : list InvestmentRecommendation * nat)
    (inv : BangladeshInvestmentOption) :
  fst (step st inv) = fst st \/
  exists r, fst (step st inv) = fst st ++ [r] /\ pushedFor user p ra inv r.
Proof.
  destruct st as [recs tick]. unfold step, visit.
  destruct (60 <=? calculateSuitabilityScore inv user p ra)%Z eqn:E;
    [| now left].
  destruct (JS.geb _ _); [| now left].
  right. eexists. split; [reflexivity |].
  unfold pushedFor; simpl. repeat split. now apply Z.leb_le.
Qed.

Lemma fold_pushes (l : list BangladeshInvestmentOption)
    (st : list InvestmentRecommendation * nat)
    (P : InvestmentRecommendation -> Prop) :
  (forall inv r, inv ∈ l -> pushedFor user p ra inv r -> P r) ->
  Forall P (fst st) -> Forall P (fst (fold_left step l st)).
Proof.
  revert st. induction l as [| inv l IH]; intros st HP Hst; simpl.
  - exact Hst.
  - apply IH.
    + intros inv' r Hin. apply HP. now apply list_elem_of_further.
    + destruct (step_pushes st inv) as [-> | (r & -> & Hr)].
      * exact Hst.
      * apply Forall_app. split; [exact Hst |].
        constructor; [| constructor].
        apply (HP inv r); [apply list_elem_of_here | exact Hr].
Qed.

(** Every recommendation returned was pushed for a candidate. *)
Lemma generated_from_candidates :
  Forall (fun r => exists inv, inv ∈ candidates /\ pushedFor user p ra inv r)
    (generateRecommendations clock user p ra).
Proof.
  unfold generateRecommendations. cbv zeta.
  eapply Permutation_Forall.
  - symmetry. apply SortFacts.sort_perm.
  - apply fold_pushes; [| constructor].
    intros inv r Hin Hr. exists inv. split; assumption.
Qed.

(** The test [recommendedAmount >= investment.minInvestment] holds. *)
Lemma amount_test (inv : BangladeshInvestmentOption) (available : Q)
    (allocation : gmap string Q) :
  JS.geb (calculateRecommendedAmount inv available allocation)
    (minInvestment inv) = true.
Proof.
  apply JSFacts.geb_ge. unfold calculateRecommendedAmount.
  apply JSFacts.max_ge_r.
Qed.

(** The instruments recommended are the candidates that score 60 or more,
    in the order of the catalog before the sort. *)
Lemma fold_types (l : list BangladeshInvestmentOption)
    (st : list InvestmentRecommendation * nat) :
  List.map investmentType (fst (fold_left step l st))
  = List.map investmentType (fst st)
    ++ List.map type
         (filter
            (fun inv => (60 <= calculateSuitabilityScore inv user p ra)%Z)
            l).
Proof.
  revert st. induction l as [| inv l IH]; intros [recs tick]; simpl.
  - now rewrite app_nil_r.
  - rewrite IH. unfold step, visit. rewrite amount_test.
    destruct (60 <=? calculateSuitabilityScore inv user p ra)%Z eqn:E.
    + apply Z.leb_le in E. rewrite filter_cons_True by exact E.
      cbn [fst]. rewrite List.map_app, <- app_assoc. reflexivity.
    + apply Z.leb_gt in E. rewrite filter_cons_False by lia. reflexivity.
Qed.

Lemma generated_types :
  Permutation
    (List.map investmentType (generateRecommendations clock user p ra))
    (List.map type
       (filter (fun inv => (60 <= calculateSuitabilityScore inv user p ra)%Z)
          candidates)).
Proof.
  unfold generateRecommendations. cbv zeta.
  rewrite SortFacts.sort_perm. fold step. rewrite fold_types. reflexivity.
Qed.

End Run.

(** *** The catalog *)

Lemma catalog_minimum_positive :
  Forall (fun inv => 0 < minInvestment inv) bangladeshInvestments.
Proof. repeat constructor. Qed.

(** An instrument of the catalog is determined by its [type]. *)
Lemma catalog_type_inj (a b : BangladeshInvestmentOption) :
  a ∈ bangladeshInvestments -> b ∈ bangladeshInvestments ->
  type a = type b -> a = b.
Proof.
  unfold bangladeshInvestments. intros Ha Hb.
  repeat (apply elem_of_cons in Ha as [-> | Ha]);
    try (now apply elem_of_nil in Ha);
    repeat (apply elem_of_cons in Hb as [-> | Hb]);
    try (now apply elem_of_nil in Hb);
    simpl; intros E; first [reflexivity | discriminate E].
Qed.

Lemma candidates_in_catalog (t : RiskTolerance)
    (inv : BangladeshInvestmentOption) :
  inv ∈ filterByRiskTolerance bangladeshInvestments t ->
  inv ∈ bangladeshInvestments.
Proof.
  destruct t; simpl; trivial; intros H; now apply list_elem_of_filter in H.
Qed.

(** *** The recommended amount *)

Lemma amount_ge_minimum (inv : BangladeshInvestmentOption) (available : Q)
    (allocation : gmap string Q) :
  minInvestment inv <= calculateRecommendedAmount inv available allocation.
Proof. apply JSFacts.geb_ge, amount_test. Qed.

Lemma or_default_nonneg (v d : Q) :
  0 <= v -> 0 <= d -> 0 <= JS.or_default (Some v) d.
Proof. intros Hv Hd. simpl. destruct (Qeq_bool v 0); assumption. Qed.

(** For an age in [18, 100] no bucket is negative, so no percentage is. *)
Lemma percentage_nonneg (c : Category) (a : Q) (t : RiskTolerance) :
  18 <= a <= 100 ->
  0 <= percentageFor c (calculateAssetAllocation a t).
Proof.
  intros Ha. pose proof (Allocation.stocks_range a t Ha) as Hs.
  assert (0 <= stocksOf a t <= 100) as Hs'
    by (destruct t; lra).
  destruct c; unfold percentageFor;
    rewrite ?Allocation.lookup_government, ?Allocation.lookup_bank,
      ?Allocation.lookup_stocks;
    try (apply or_default_nonneg); try lra.
  - destruct (JSFacts.min_cases ((100 - stocksOf a t) * 0.6) 40)
      as [[? E] | [? E]]; rewrite E; lra.
  - destruct (JSFacts.min_cases ((100 - stocksOf a t) * 0.4) 30)
      as [[? E] | [? E]]; rewrite E; lra.
Qed.

(** With nothing available and a percentage that is not negative, the
    amount is the minimum investment. *)
Lemma amount_is_minimum (inv : BangladeshInvestmentOption) (available : Q)
    (allocation : gmap string Q) :
  available <= 0 ->
  0 <= percentageFor (category inv) allocation ->
  0 <= minInvestment inv ->
  calculateRecommendedAmount inv available allocation == minInvestment inv.
Proof.
  intros Ha Hp Hm. unfold calculateRecommendedAmount. cbv zeta.
  set (pct := percentageFor (category inv) allocation) in *.
  assert (available * pct / 100 <= 0) as Hle.
  { apply Qle_shift_div_r; [reflexivity | nra]. }
  destruct (JSFacts.max_cases (available * pct / 100) (minInvestment inv))
    as [[? E] | [? E]]; rewrite E; lra.
Qed.

(** The percentage is the bucket itself, unless the bucket is 0. *)
Lemma percentage_is_bucket (c : Category) (allocation : gmap string Q) :
  ~ Reference.bucketFor c allocation == 0 ->
  percentageFor c allocation = Reference.bucketFor c allocation.
Proof.
  destruct c; simpl; trivial;
    (match goal with |- context [allocation !! ?k] =>
       destruct (allocation !! k) as [v |] end);
    simpl; intros H; try (now destruct H);
    destruct (Qeq_bool v 0) eqn:E; trivial;
    apply Qeq_bool_eq in E; contradiction.
Qed.

(** C2, as stated, fails when the bucket is 0.  A moderate investor of 100
    has 0 percent of stocks; with 100000 available the mutual fund is
    recommended for 30000, by the fallback percentage of 30, where the
    formula of the claim gives the minimum investment of 5000. *)
Lemma zero_bucket_takes_fallback :
  exists inv : BangladeshInvestmentOption,
    getInvestmentDetails MUTUAL_FUND = Some inv /\
    calculateAssetAllocation 100 MODERATE !! "stocks" = Some (100 - 100) /\
    calculateRecommendedAmount inv 100000
      (calculateAssetAllocation 100 MODERATE) == 30000 /\
    Reference.recommendedAmountByBucket inv 100000
      (calculateAssetAllocation 100 MODERATE) == 5000 /\
    ~ calculateRecommendedAmount inv 100000
        (calculateAssetAllocation 100 MODERATE)
      == Reference.recommendedAmountByBucket inv 100000
           (calculateAssetAllocation 100 MODERATE).
Proof.
  eexists. split; [reflexivity |]. split; [reflexivity |].
  split; [reflexivity |]. split; [reflexivity |].
  intros H. vm_compute in H. discriminate H.
Qed.

(** The same in a run of [generateRecommendations]. *)
Example centenarian_run :
  List.map (fun r => (investmentType r, Qred (recommendedAmount r)))
    (generateRecommendations Samples.clock Samples.centenarian
       Samples.comfortable Samples.moderate)
  = [ (SANCHAYAPATRA, 40000); (DPS, 30000); (FIXED_DEPOSIT, 30000);
      (BOND, 100000); (MUTUAL_FUND, 30000) ].
Proof. vm_compute. reflexivity. Qed.

(** C2 (amended): [calculateRecommendedAmount] returns
    [max(availableAmount * pct / 100, minInvestment)] where [pct] is the
    allocation bucket of the category (10 for the other categories), except
    that a bucket that is 0 or absent is replaced by 20 (government, bank)
    or 30 (stock, mutual fund).  The result is never below [minInvestment],
    so the later test never skips; every recommendation returned carries
    this amount for its instrument; and when [availableAmount <= 0] and the
    age is in [18, 100] the amount is [minInvestment]. *)
Theorem recommended_amount
    (clock : nat -> Z) (user : User) (p : FinancialProfile)
    (ra : RiskAssessment) :
  let available := monthlyIncome p - monthlyExpenses p in
  let allocation := calculateAssetAllocation (age user) (tolerance ra) in
  (forall inv a alloc,
     calculateRecommendedAmount inv a alloc
     = JS.Math_max
         (a * match category inv with
              | government => JS.or_default (alloc !! "government") 20
              | bank => JS.or_default (alloc !! "bank") 20
              | stock | mutual_fund => JS.or_default (alloc !! "stocks") 30
              | bond | sanchayapatra => 10
              end / 100)
         (minInvestment inv)) /\
  (forall inv a alloc,
     ~ Reference.bucketFor (category inv) alloc == 0 ->
     calculateRecommendedAmount inv a alloc
     = Reference.recommendedAmountByBucket inv a alloc) /\
  (forall inv a alloc,
     JS.geb (calculateRecommendedAmount inv a alloc) (minInvestment inv)
     = true) /\
  Forall
    (fun r =>
       exists inv,
         inv ∈ bangladeshInvestments /\
         investmentType r = type inv /\
         recommendedAmount r
         = calculateRecommendedAmount inv available allocation /\
         minInvestment inv <= recommendedAmount r /\
         (available <= 0 -> 18 <= age user <= 100 ->
          recommendedAmount r == minInvestment inv))
    (generateRecommendations clock user p ra).
Proof.
  intros available allocation.
  split; [intros inv a alloc; destruct inv as [? ? ? ? ? ? ? ? ? ? ? []];
          reflexivity |].
  split.
  { intros inv a alloc H. unfold calculateRecommendedAmount,
      Reference.recommendedAmountByBucket. cbv zeta.
    now rewrite percentage_is_bucket. }
  split; [intros inv a alloc; apply amount_test |].
  eapply Forall_impl; [apply generated_from_candidates |].
  intros r (inv & Hin & Ht & _ & _ & Ha & _). simpl in Ha.
  apply candidates_in_catalog in Hin.
  exists inv. split; [exact Hin |]. split; [exact Ht |].
  split; [exact Ha |]. split.
  - rewrite Ha. apply amount_ge_minimum.
  - intros Hav Hage. rewrite Ha. apply amount_is_minimum.
    + exact Hav.
    + now apply percentage_nonneg.
    + pose proof catalog_minimum_positive as Hpos.
      rewrite Forall_forall in Hpos. apply Qlt_le_weak, Hpos, Hin.
Qed.

(** With nothing to spare, the sample investor is recommended the minimum
    investment of each instrument. *)
Lemma recommended_amount_witness :
  monthlyIncome Samples.profile - monthlyExpenses Samples.profile <= 0 /\
  18 <= age Samples.user <= 100 /\
  generateRecommendations Samples.clock Samples.user Samples.profile
    Samples.assessment <> [] /\
  Forall
    (fun r =>
       exists inv,
         inv ∈ bangladeshInvestments /\
         investmentType r = type inv /\
         recommendedAmount r == minInvestment inv)
    (generateRecommendations Samples.clock Samples.user Samples.profile
       Samples.assessment).
Proof.
  assert (monthlyIncome Samples.profile - monthlyExpenses Samples.profile
          <= 0) as Hav by (simpl; lra).
  assert (18 <= age Samples.user <= 100) as Hage by (simpl; lra).
  split; [exact Hav |]. split; [exact Hage |].
  split; [intros E; vm_compute in E; discriminate E |].
  destruct (recommended_amount Samples.clock Samples.user Samples.profile
              Samples.assessment) as (_ & _ & _ & H).
  eapply Forall_impl; [exact H |].
  intros r (inv & Hin & Ht & _ & _ & Hmin).
  exists inv. split; [exact Hin |]. split; [exact Ht |].
  exact (Hmin Hav Hage).
Defined.

(** Outside the ages of 18 to 100 a bucket can be negative: a moderate
    investor of 120 who overspends by 100000 is recommended 20000 of the
    mutual fund, four times its minimum. *)
Example overspending_at_120 :
  List.map (fun r => (investmentType r, Qred (recommendedAmount r)))
    (generateRecommendations Samples.clock
       {| user_id := "user123"; age := 120 |}
       {| monthlyIncome := 100000; monthlyExpenses := 200000;
          currentSavings := 1200000; dependents := 0 |}
       Samples.moderate)
  = [ (SANCHAYAPATRA, 1000); (DPS, 500); (FIXED_DEPOSIT, 1000);
      (BOND, 100000); (MUTUAL_FUND, 20000) ].
Proof. vm_compute. reflexivity. Qed.

(** *** The filter by risk tolerance *)

Lemma filter_conservative (l : list BangladeshInvestmentOption)
    (inv : BangladeshInvestmentOption) :
  inv ∈ filterByRiskTolerance l CONSERVATIVE
  <-> riskLevel inv = LOW /\ inv ∈ l.
Proof.
  unfold filterByRiskTolerance.
  apply (list_elem_of_filter (fun i => riskLevel i = LOW)).
Qed.

Lemma filter_moderate (l : list BangladeshInvestmentOption)
    (inv : BangladeshInvestmentOption) :
  inv ∈ filterByRiskTolerance l MODERATE
  <-> (riskLevel inv = LOW \/ riskLevel inv = MEDIUM) /\ inv ∈ l.
Proof.
  unfold filterByRiskTolerance.
  apply (list_elem_of_filter
           (fun i => riskLevel i = LOW \/ riskLevel i = MEDIUM)).
Qed.

(** The risk levels a tolerance admits. *)
Lemma candidate_level (l : list BangladeshInvestmentOption)
    (t : RiskTolerance) (inv : BangladeshInvestmentOption) :
  inv ∈ filterByRiskTolerance l t ->
  match t with
  | CONSERVATIVE => riskLevel inv = LOW
  | MODERATE => riskLevel inv = LOW \/ riskLevel inv = MEDIUM
  | AGGRESSIVE => True
  end.
Proof.
  destruct t; intros H; trivial.
  - now apply filter_conservative in H.
  - now apply filter_moderate in H.
Qed.

(** C5: a conservative user's recommendations are all of low risk, a
    moderate user's of low or medium risk, whatever the suitability scores
    are; each recommendation stands for a candidate left by the filter, the
    instruments recommended are the candidates that score 60 or more, and
    for an aggressive user the candidates are the whole catalog. *)
Theorem filtered_by_risk_tolerance
    (clock : nat -> Z) (user : User) (p : FinancialProfile)
    (ra : RiskAssessment) :
  Forall
    (fun r =>
       match tolerance ra with
       | CONSERVATIVE => rec_riskLevel r = LOW
       | MODERATE => rec_riskLevel r = LOW \/ rec_riskLevel r = MEDIUM
       | AGGRESSIVE => True
       end /\
       exists inv,
         inv ∈ filterByRiskTolerance bangladeshInvestments (tolerance ra) /\
         investmentType r = type inv /\
         rec_riskLevel r = riskLevel inv)
    (generateRecommendations clock user p ra) /\
  Permutation
    (List.map investmentType (generateRecommendations clock user p ra))
    (List.map type
       (filter (fun inv => (60 <= calculateSuitabilityScore inv user p ra)%Z)
          (filterByRiskTolerance bangladeshInvestments (tolerance ra)))) /\
  filterByRiskTolerance bangladeshInvestments AGGRESSIVE
  = bangladeshInvestments /\
  List.map type (filterByRiskTolerance bangladeshInvestments CONSERVATIVE)
  = [SANCHAYAPATRA; DPS; FIXED_DEPOSIT; BOND] /\
  List.map type (filterByRiskTolerance bangladeshInvestments MODERATE)
  = [SANCHAYAPATRA; DPS; FIXED_DEPOSIT; MUTUAL_FUND; BOND].
Proof.
  split; [| split; [apply generated_types | repeat split]].
  eapply Forall_impl; [apply generated_from_candidates |].
  intros r (inv & Hin & Ht & Hl & _). split.
  - apply candidate_level in Hin. rewrite Hl. exact Hin.
  - exists inv. repeat split; assumption.
Qed.

(** *** The threshold of 60 *)

(** C6: every recommendation returned has a suitability score of at
    least 60, and an instrument of the catalog that scores below 60 has no
    recommendation in the list. *)
Theorem score_at_least_60
    (clock : nat -> Z) (user : User) (p : FinancialProfile)
    (ra : RiskAssessment) :
  Forall (fun r => (60 <= suitabilityScore r)%Z)
    (generateRecommendations clock user p ra) /\
  Forall
    (fun inv =>
       (calculateSuitabilityScore inv user p ra < 60)%Z ->
       Forall (fun r => investmentType r <> type inv)
         (generateRecommendations clock user p ra))
    bangladeshInvestments.
Proof.
  split.
  - eapply Forall_impl; [apply generated_from_candidates |].
    intros r (inv & _ & _ & _ & _ & _ & H). exact H.
  - apply Forall_forall. intros inv Hinv Hlow.
    eapply Forall_impl; [apply generated_from_candidates |].
    intros r (inv' & Hin' & Ht & _ & Hs & _ & H60) E.
    apply candidates_in_catalog in Hin'.
    assert (inv' = inv) as ->
      by (apply catalog_type_inj; [assumption .. | congruence]).
    lia.
Qed.

(** For an aggressive investor of 25 with a stretched budget only the stock
    market reaches 60; the mutual fund scores 52 and is left out. *)
Lemma score_at_least_60_witness :
  exists inv : BangladeshInvestmentOption,
    getInvestmentDetails MUTUAL_FUND = Some inv /\
    (calculateSuitabilityScore inv Samples.young Samples.stretched
       Samples.aggressive < 60)%Z /\
    List.map (fun r => (investmentType r, suitabilityScore r))
      (generateRecommendations Samples.clock Samples.young Samples.stretched
         Samples.aggressive)
    = [ (STOCK, 62%Z) ] /\
    Forall (fun r => investmentType r <> type inv)
      (generateRecommendations Samples.clock Samples.young Samples.stretched
         Samples.aggressive).
Proof.
  eexists. split; [reflexivity |].
  match goal with
  | |- (calculateSuitabilityScore ?inv _ _ _ < _)%Z /\ _ =>
      assert (calculateSuitabilityScore inv Samples.young Samples.stretched
                Samples.aggressive < 60)%Z as Hlow by reflexivity;
      assert (inv ∈ bangladeshInvestments) as Hin
        by (repeat first [apply list_elem_of_here
                         | apply list_elem_of_further])
  end.
  split; [exact Hlow |]. split; [vm_compute; reflexivity |].
  destruct (score_at_least_60 Samples.clock Samples.young Samples.stretched
              Samples.aggressive) as [_ H].
  rewrite Forall_forall in H. exact (H _ Hin Hlow).
Defined.

(** An aggressive investor of 25: every instrument passes the threshold and
    the stock market comes first. *)
Example aggressive_run :
  List.map (fun r => (investmentType r, suitabilityScore r))
    (generateRecommendations Samples.clock Samples.young
       Samples.comfortable Samples.aggressive)
  = [ (STOCK, 100%Z); (MUTUAL_FUND, 90%Z); (SANCHAYAPATRA, 80%Z);
      (DPS, 80%Z); (FIXED_DEPOSIT, 80%Z); (BOND, 80%Z) ].
Proof. vm_compute. reflexivity. Qed.

(** *** The order of the list *)

Lemma Sorted_impl {A : Type} (R R' : A -> A -> Prop) (l : list A) :
  (forall a b, R a b -> R' a b) -> Sorted R l -> Sorted R' l.
Proof.
  intros HR. induction 1 as [| a l Hs IH Hhd]; constructor; trivial.
  destruct Hhd; constructor. now apply HR.
Qed.

(** C9: the list returned is sorted by [suitabilityScore] in descending
    order: each recommendation scores at least as much as the next. *)
Theorem sorted_by_score
    (clock : nat -> Z) (user : User) (p : FinancialProfile)
    (ra : RiskAssessment) :
  Sorted (fun a b => (suitabilityScore b <= suitabilityScore a)%Z)
    (generateRecommendations clock user p ra).
Proof.
  unfold generateRecommendations. cbv zeta.
  eapply Sorted_impl; [| apply SortFacts.sort_sorted].
  - unfold JS.before, bySuitability. intros a b H. lia.
  - unfold bySuitability. intros x y H. lia.
Qed.

End Recommendations.

(** ** The projection calculator *)

Module ProjectionFacts.

Import InvestmentRecommendationService Notions.
Local Open Scope Q_scope.

Section Loop.
Variables (amount annualReturn monthlyContribution : Q).

Let stateAfter :=
  Notions.stateAfter amount annualReturn monthlyContribution.

Lemma breakdown_S (n : nat) :
  Reference.breakdown amount annualReturn monthlyContribution (S n)
  = Reference.breakdown amount annualReturn monthlyContribution n
    ++ [Reference.record amount annualReturn monthlyContribution (S n)].
Proof.
  unfold Reference.breakdown. rewrite seq_S, List.map_app. reflexivity.
Qed.

Lemma body_stateAfter (n : nat) :
  loopBody annualReturn monthlyContribution (stateAfter n)
  = stateAfter (S n).
Proof.
  unfold loopBody, stateAfter, Notions.stateAfter. cbv zeta.
  cbn [loop_year loop_totalInvestment loop_currentValue
       loop_yearlyBreakdown].
  rewrite breakdown_S. unfold Reference.record.
  replace (Z.of_nat (S n)) with (Z.of_nat n + 1)%Z by lia.
  reflexivity.
Qed.

Lemma loop_stateAfter (years : Z) (fuel n : nat) :
  (Z.of_nat (n + fuel) <= years)%Z ->
  loop fuel annualReturn years monthlyContribution (stateAfter n)
  = stateAfter (n + fuel).
Proof.
  revert n. induction fuel as [| fuel IH]; intros n Hle; simpl.
  - now rewrite Nat.add_0_r.
  - assert ((Z.of_nat n + 1 <=? years)%Z = true) as ->
      by (apply Z.leb_le; lia).
    rewrite body_stateAfter, IH by lia.
    f_equal. lia.
Qed.

(** The loop of [calculateProjection] ends in the state of the
    recurrence after [years] years. *)
Lemma loop_result (years : Z) :
  loop (Z.to_nat years) annualReturn years monthlyContribution
    (stateAfter 0)
  = stateAfter (Z.to_nat years).
Proof.
  destruct (Z.le_gt_cases 0 years) as [H | H].
  - rewrite loop_stateAfter by (simpl; lia). reflexivity.
  - replace (Z.to_nat years) with 0%nat by lia. reflexivity.
Qed.

(** The loop ends because its test fails, not for want of fuel. *)
Lemma loop_exit (years : Z) :
  (years <
   loop_year
     (loop (Z.to_nat years) annualReturn years monthlyContribution
        (stateAfter 0)))%Z.
Proof.
  rewrite loop_result. unfold stateAfter, Notions.stateAfter.
  cbn [loop_year]. lia.
Qed.

Lemma calculateProjection_spec (years : Z) :
  calculateProjection amount annualReturn years monthlyContribution
  = let n := Z.to_nat years in
    {| futureValue :=
         JS.Math_round
           (Reference.currentValueAfter amount annualReturn
              monthlyContribution n);
       totalInvestment :=
         Reference.totalInvestmentAfter amount monthlyContribution n;
       totalReturn :=
         JS.Math_round
           (Reference.currentValueAfter amount annualReturn
              monthlyContribution n
            - Reference.totalInvestmentAfter amount monthlyContribution
                n);
       yearlyBreakdown :=
         Reference.breakdown amount annualReturn monthlyContribution n
    |}.
Proof.
  unfold calculateProjection. cbv zeta.
  change {| loop_year := 1; loop_totalInvestment := amount;
            loop_currentValue := amount; loop_yearlyBreakdown := [] |}
    with (stateAfter 0).
  rewrite loop_result. reflexivity.
Qed.

End Loop.




(** A monthly contribution of 2000 on top of 100000 at 8.5 percent. *)
Example contributions_run :
  let P := calculateProjection 100000 8.5 3 2000 in
  (futureValue P, Qred (totalInvestment P), totalReturn P)
  = (212677%Z, 172000, 40677%Z) /\
  List.map (fun e => (year e, Qred (investment e), value e, return_ e))
    (yearlyBreakdown P)
  = [ (1%Z, 124000, 134540%Z, 10540%Z);
      (2%Z, 148000, 172016%Z, 24016%Z);
      (3%Z, 172000, 212677%Z, 40677%Z) ].
Proof. vm_compute. split; reflexivity. Qed.

End ProjectionFacts.

(** ** Rounding to binary64 *)

Module Binary64Facts.

Import Binary64.
Local Open Scope Q_scope.

(** *** Powers of 2 *)






(** *** The binade *)



(** *** Rounding to an integer *)




(** *** The nearest number *)








(** The numbers written [0.1] and [0.3], the sum [0.1 + 0.2], which is
    not the number written [0.3], and the greatest number. *)
Example tenths :
  round (1 # 10) = JS.Finite (3602879701896397 # 36028797018963968) /\
  round (3 # 10) = JS.Finite (5404319552844595 # 18014398509481984) /\
  add (round (1 # 10)) (round (2 # 10))
  = JS.Finite (1351079888211149 # 4503599627370496) /\
  round (2 ^ 1024 - 2 ^ 971) = JS.Finite (Qred (2 ^ 1024 - 2 ^ 971)) /\
  round (2 ^ 1024 - 2 ^ 970) = JS.PosInfinity /\
  round (2 ^ (-1075)) = JS.Finite 0 /\
  div (JS.Finite 1) (JS.Finite 0) = JS.PosInfinity /\
  sub JS.PosInfinity JS.PosInfinity = JS.NaN.
Proof. vm_compute. repeat split; reflexivity. Qed.

End Binary64Facts.

(** ** The rounded return of a projection *)

Module RoundedReturn.

Import Binary64 Notions.
Local Open Scope Q_scope.


Section Run.
Variables (a m : Z) (annualReturn : JS.number) (years : Z).
Hypothesis below_2_53 :
  (Z.abs a + Z.max years 0 * (12 * Z.abs m) < 2 ^ 53)%Z.

(** The total investment after [j] years. *)
Let invested (j : Z) : Z := (a + j * (m * 12))%Z.







End Run.



End RoundedReturn.

(** ** The risk questionnaire *)

Module RiskScore.

Import RiskAssessmentScreen Notions.
Local Open Scope Z_scope.

Lemma riskQuestions_wellFormed : Forall wellFormed riskQuestions.
Proof. repeat constructor; simpl; lia. Qed.

Lemma maxScore_32 : maxScore = 32.
Proof. reflexivity. Qed.

Section Answers.
Variable answers : gmap string string.

Lemma scoreQuestion_total (st : Z * list RiskAssessmentAnswer)
    (q : Question) :
  fst (scoreQuestion answers st q) = fst st + contribution answers q.
Proof.
  destruct st as [t l]. unfold contribution, scoreQuestion.
  destruct (answers !! id q) as [sel |]; simpl; [| lia].
  destruct (JS.truthy sel); simpl; [| lia].
  destruct (List.find _ (options q)); simpl; lia.
Qed.

Lemma fold_total (qs : list Question)
    (st : Z * list RiskAssessmentAnswer) :
  fst (fold_left (scoreQuestion answers) qs st)
  = fst st + foldr Z.add 0 (List.map (contribution answers) qs).
Proof.
  revert st. induction qs as [| q qs IH]; intros st; simpl.
  - lia.
  - rewrite IH, scoreQuestion_total. lia.
Qed.

(** The option [find] returns is one of the options. *)
Lemma find_option (sel : string) (opts : list QuestionOption) :
  existsb (fun opt => String.eqb (opt_value opt) sel) opts = true ->
  exists opt,
    List.find (fun opt => String.eqb (opt_value opt) sel) opts = Some opt
    /\ opt ∈ opts /\ opt_value opt = sel.
Proof.
  induction opts as [| o opts IH]; simpl; [discriminate |].
  destruct (String.eqb (opt_value o) sel) eqn:E.
  - intros _. exists o. split; [reflexivity |].
    split; [apply list_elem_of_here | now apply String.eqb_eq].
  - simpl. intros H. destruct (IH H) as (opt & Hf & Hin & Hv).
    exists opt. split; [exact Hf |].
    split; [now apply list_elem_of_further | exact Hv].
Qed.

Lemma contribution_answered (q : Question) :
  wellFormed q -> answered answers q = true ->
  1 <= contribution answers q <= 4.
Proof.
  unfold wellFormed, answered, contribution, scoreQuestion.
  intros Hwf Ha.
  destruct (answers !! id q) as [sel |]; [| discriminate].
  destruct (find_option sel (options q) Ha) as (opt & Hf & Hin & Hv).
  rewrite Forall_forall in Hwf. destruct (Hwf opt Hin) as [Hs Ht].
  rewrite Hv in Ht. rewrite Ht, Hf. simpl. lia.
Qed.

Lemma contribution_any (q : Question) :
  wellFormed q -> 0 <= contribution answers q <= 4.
Proof.
  unfold wellFormed, contribution, scoreQuestion. intros Hwf.
  destruct (answers !! id q) as [sel |]; simpl; [| lia].
  destruct (JS.truthy sel); simpl; [| lia].
  destruct (List.find _ (options q)) as [opt |] eqn:Hf; simpl; [| lia].
  apply find_some in Hf as [Hin _]. apply list_elem_of_In in Hin.
  rewrite Forall_forall in Hwf. destruct (Hwf opt Hin) as [Hs _]. lia.
Qed.

Lemma sum_answered (qs : list Question) :
  Forall wellFormed qs -> forallb (answered answers) qs = true ->
  Z.of_nat (length qs)
  <= foldr Z.add 0 (List.map (contribution answers) qs)
  <= 4 * Z.of_nat (length qs).
Proof.
  induction 1 as [| q qs Hq Hqs IH]; simpl; [lia |].
  intros H. apply andb_true_iff in H as [Ha Hrest].
  pose proof (contribution_answered q Hq Ha). specialize (IH Hrest).
  lia.
Qed.

Lemma sum_any (qs : list Question) :
  Forall wellFormed qs ->
  0 <= foldr Z.add 0 (List.map (contribution answers) qs)
  <= 4 * Z.of_nat (length qs).
Proof.
  induction 1 as [| q qs Hq Hqs IH]; simpl; [lia |].
  pose proof (contribution_any q Hq). lia.
Qed.

Lemma total_full :
  fullAnswerSet answers = true -> 8 <= totalOf answers <= 32.
Proof.
  intros H. unfold totalOf. rewrite fold_total.
  pose proof (sum_answered riskQuestions riskQuestions_wellFormed H)
    as Hs.
  simpl fst. change (Z.of_nat (length riskQuestions)) with 8 in Hs. lia.
Qed.

(** A partial answer set scores less: anything from 0. *)
Lemma total_any : 0 <= totalOf answers <= 32.
Proof.
  unfold totalOf. rewrite fold_total.
  pose proof (sum_any riskQuestions riskQuestions_wellFormed) as Hs.
  simpl fst. change (Z.of_nat (length riskQuestions)) with 8 in Hs. lia.
Qed.

(** What [calculateRiskScore] returns, in terms of the total. *)
Lemma calculateRiskScore_result (user : option string) (now : Z) :
  let pct := (inject_Z (totalOf answers) / inject_Z maxScore * 100)%Q in
  score (fst (calculateRiskScore user now answers)) = totalOf answers /\
  tolerance (fst (calculateRiskScore user now answers)) = toleranceOf pct
  /\ snd (calculateRiskScore user now answers) = pct.
Proof.
  unfold calculateRiskScore, totalOf.
  destruct (fold_left (scoreQuestion answers) riskQuestions (0, []))
    as [t l].
  simpl. repeat split.
Qed.
End Answers.

(** The percentage grows with the raw score. *)
Lemma percentage_mono (s1 s2 : Z) :
  s1 <= s2 ->
  (inject_Z s1 / inject_Z maxScore * 100
   <= inject_Z s2 / inject_Z maxScore * 100)%Q.
Proof.
  intros H. rewrite maxScore_32. rewrite Zle_Qle in H.
  change (inject_Z 32) with 32%Q.
  assert (forall x : Q, (x / 32 * 100 == x * (100 # 32))%Q) as E
    by (intros; field).
  rewrite !E. lra.
Qed.

Lemma toleranceOf_cases (pct : Q) :
  (toleranceOf pct = CONSERVATIVE <-> (pct <= 40)%Q) /\
  (toleranceOf pct = MODERATE <-> (40 < pct)%Q /\ (pct <= 70)%Q) /\
  (toleranceOf pct = AGGRESSIVE <-> (70 < pct)%Q).
Proof.
  unfold toleranceOf.
  destruct (JS.leb pct 40) eqn:E1; destruct (JS.leb pct 70) eqn:E2;
    try apply JSFacts.leb_le in E1; try apply JSFacts.leb_gt in E1;
    try apply JSFacts.leb_le in E2; try apply JSFacts.leb_gt in E2;
    repeat split; intros; try discriminate; try lra.
Qed.

Lemma toleranceOf_mono (p1 p2 : Q) :
  (p1 <= p2)%Q -> tier (toleranceOf p1) <= tier (toleranceOf p2).
Proof.
  intros H. unfold toleranceOf.
  destruct (JS.leb p1 40) eqn:A1; destruct (JS.leb p1 70) eqn:A2;
    destruct (JS.leb p2 40) eqn:B1; destruct (JS.leb p2 70) eqn:B2;
    simpl; try lia; exfalso;
    try apply JSFacts.leb_le in A1; try apply JSFacts.leb_gt in A1;
    try apply JSFacts.leb_le in A2; try apply JSFacts.leb_gt in A2;
    try apply JSFacts.leb_le in B1; try apply JSFacts.leb_gt in B1;
    try apply JSFacts.leb_le in B2; try apply JSFacts.leb_gt in B2;
    lra.
Qed.

(** C4: for a full answer set the raw score is in [8, 32]; with
    [scorePercentage = rawScore / 32 * 100] the tolerance is conservative
    iff [scorePercentage <= 40], moderate iff [40 < scorePercentage <= 70]
    and aggressive iff [scorePercentage > 70]; and an answer set with a
    raw score at least as high never gets a lower tier. *)
Theorem risk_score_and_tier
    (user : option string) (now : Z) (answers : gmap string string) :
  fullAnswerSet answers = true ->
  let assessment := fst (calculateRiskScore user now answers) in
  let scorePercentage := snd (calculateRiskScore user now answers) in
  8 <= score assessment <= 32 /\
  scorePercentage = (inject_Z (score assessment) / 32 * 100)%Q /\
  (tolerance assessment = CONSERVATIVE <-> (scorePercentage <= 40)%Q) /\
  (tolerance assessment = MODERATE
   <-> (40 < scorePercentage)%Q /\ (scorePercentage <= 70)%Q) /\
  (tolerance assessment = AGGRESSIVE <-> (70 < scorePercentage)%Q) /\
  (forall user' now' answers',
     let assessment' := fst (calculateRiskScore user' now' answers') in
     (score assessment <= score assessment' ->
      tier (tolerance assessment) <= tier (tolerance assessment')) /\
     (score assessment' <= score assessment ->
      tier (tolerance assessment') <= tier (tolerance assessment))).
Proof.
  intros Hfull assessment scorePercentage.
  destruct (calculateRiskScore_result answers user now) as (Hs & Ht & Hp).
  subst assessment scorePercentage. rewrite Hs, Ht, Hp.
  split; [now apply total_full |].
  split; [reflexivity |].
  pose proof (toleranceOf_cases
                (inject_Z (totalOf answers) / inject_Z maxScore * 100))
    as (Hc & Hm & Ha).
  split; [exact Hc |]. split; [exact Hm |]. split; [exact Ha |].
  intros user' now' answers' assessment'.
  destruct (calculateRiskScore_result answers' user' now')
    as (Hs' & Ht' & _).
  subst assessment'. rewrite Hs', Ht'.
  split; intros Hle; apply toleranceOf_mono, percentage_mono, Hle.
Qed.

Lemma risk_score_and_tier_witness :
  fullAnswerSet Samples.answers = true /\
  score (fst (calculateRiskScore (Some "user123") 1700000000000
                Samples.answers)) = 21 /\
  8 <= score (fst (calculateRiskScore (Some "user123") 1700000000000
                     Samples.answers)) <= 32.
Proof.
  assert (fullAnswerSet Samples.answers = true) as H by reflexivity.
  split; [exact H |]. split; [reflexivity |].
  exact (proj1 (risk_score_and_tier (Some "user123") 1700000000000
                  Samples.answers H)).
Defined.

(** The extreme answer sets and the two thresholds. *)
Example lowest_is_conservative :
  let r := calculateRiskScore None 0 Samples.lowest in
  (score (fst r), tolerance (fst r), Qred (snd r)) = (8, CONSERVATIVE, 25%Q).
Proof. reflexivity. Qed.

Example highest_is_aggressive :
  let r := calculateRiskScore None 0 Samples.highest in
  (score (fst r), tolerance (fst r), Qred (snd r))
  = (32, AGGRESSIVE, 100%Q).
Proof. reflexivity. Qed.

Example thresholds :
  List.map (fun s => toleranceOf (inject_Z s / inject_Z maxScore * 100))
    [12; 13; 22; 23]
  = [CONSERVATIVE; MODERATE; MODERATE; AGGRESSIVE].
Proof. reflexivity. Qed.

End RiskScore.

(** ** The optimal portfolio *)

Module Portfolio.

Import InvestmentRecommendationService Notions.
Local Open Scope Q_scope.

Lemma catalog_returns :
  Forall (fun inv => 6.5 <= expectedReturn inv <= 15.8)
    bangladeshInvestments.
Proof. repeat constructor; simpl; lra. Qed.

Section Run.
Variables (clock : nat -> Z) (user : User) (p : FinancialProfile)
          (ra : RiskAssessment).

(** A property of the recommendations that every push keeps holds of the
    list returned. *)
Lemma generated_Forall (P : InvestmentRecommendation -> Prop) :
  (forall inv tick,
     inv ∈ bangladeshInvestments ->
     (60 <= calculateSuitabilityScore inv user p ra)%Z ->
     P {| rec_id :=
            [ JS.Text "rec_"; JS.Text (InvestmentType_value (type inv));
              JS.Text "_"; JS.Num (inject_Z (clock tick)) ];
          rec_userId := user_id user;
          investmentType := type inv;
          recommendedAmount :=
            calculateRecommendedAmount inv
              (monthlyIncome p - monthlyExpenses p)
              (calculateAssetAllocation (age user) (tolerance ra));
          rec_expectedReturn := expectedReturn inv;
          rec_riskLevel := riskLevel inv;
          reasoning :=
            generateReasoning inv user
              (calculateSuitabilityScore inv user p ra);
          rec_pros := pros inv;
          rec_cons := cons inv;
          suitabilityScore := calculateSuitabilityScore inv user p ra;
          createdAt := clock (S tick) |}) ->
  Forall P (generateRecommendations clock user p ra).
Proof.
  intros HP. unfold generateRecommendations. cbv zeta.
  eapply Permutation_Forall; [symmetry; apply SortFacts.sort_perm |].
  assert (forall l st,
            (forall inv, inv ∈ l -> inv ∈ bangladeshInvestments) ->
            Forall P (fst st) ->
            Forall P
              (fst (fold_left
                      (visit clock user p ra
                         (monthlyIncome p - monthlyExpenses p)
                         (calculateAssetAllocation (age user)
                            (tolerance ra))) l st))) as Hfold.
  { induction l as [| inv l IH]; intros [recs tick] Hl Hst; simpl.
    - exact Hst.
    - apply IH.
      + intros inv' Hin. apply Hl. now apply list_elem_of_further.
      + unfold visit.
        destruct (60 <=? calculateSuitabilityScore inv user p ra)%Z eqn:E;
          [| exact Hst].
        destruct (JS.geb _ _); [| exact Hst].
        cbn [fst] in *. apply Forall_app. split; [exact Hst |].
        constructor; [| constructor].
        apply HP; [apply Hl, list_elem_of_here | now apply Z.leb_le]. }
  apply Hfold; [| constructor].
  intros inv. apply Recommendations.candidates_in_catalog.
Qed.

(** Every recommendation has a positive amount and the expected return of
    an instrument of the catalog. *)
Lemma generated_positive :
  Forall
    (fun r =>
       0 < recommendedAmount r /\ 6.5 <= rec_expectedReturn r <= 15.8)
    (generateRecommendations clock user p ra).
Proof.
  apply generated_Forall. intros inv tick Hin _. cbn.
  pose proof Recommendations.catalog_minimum_positive as Hmin.
  pose proof catalog_returns as Hret.
  rewrite Forall_forall in Hmin, Hret.
  specialize (Hmin inv Hin). specialize (Hret inv Hin).
  pose proof (Recommendations.amount_ge_minimum inv
                (monthlyIncome p - monthlyExpenses p)
                (calculateAssetAllocation (age user) (tolerance ra))).
  split; [lra | exact Hret].
Qed.
End Run.

(** *** The sums *)

Lemma sums_bounds (recs : list InvestmentRecommendation) :
  Forall
    (fun r =>
       0 < recommendedAmount r /\ 6.5 <= rec_expectedReturn r <= 15.8)
    recs ->
  0 <= amountSum recs /\
  (recs <> [] -> 0 < amountSum recs) /\
  6.5 * amountSum recs <= returnSum recs <= 15.8 * amountSum recs.
Proof.
  induction 1 as [| r recs [Ha [Hlo Hhi]] _ (IH0 & _ & IHlo & IHhi)];
    cbn [amountSum returnSum foldr].
  - split; [lra |]. split; [congruence | lra].
  - fold (amountSum recs) (returnSum recs).
    split; [lra |]. split; [intros _; lra | split; nra].
Qed.

(** With a target that is not 0 every weight is finite, and so are both
    totals. *)
Lemma fold_weigh_finite (target : Q) (recs : list InvestmentRecommendation)
    (a b : Q) :
  ~ target == 0 ->
  exists a' b',
    fold_left (weigh target) recs (JS.Finite a, JS.Finite b)
    = (JS.Finite a', JS.Finite b') /\
    a' == a + amountSum recs / target /\
    b' == b + returnSum recs / target.
Proof.
  intros Ht. revert a b.
  induction recs as [| r recs IH]; intros a b;
    cbn [fold_left amountSum returnSum foldr].
  - exists a, b. split; [reflexivity |]. split; field; exact Ht.
  - fold (amountSum recs) (returnSum recs).
    unfold weigh at 2. unfold JS.div.
    destruct (Qeq_bool target 0) eqn:E;
      [apply Qeq_bool_eq in E; contradiction |].
    cbn [JS.add JS.mul].
    destruct (IH (a + recommendedAmount r / target)
                (b + rec_expectedReturn r * (recommendedAmount r / target)))
      as (a' & b' & Hf & Ha & Hb).
    exists a', b'. split; [exact Hf |].
    split; [rewrite Ha | rewrite Hb]; field; exact Ht.
Qed.

(** With a target of 0 every weight is plus Infinity, and so are both
    totals once a recommendation is weighed. *)
Lemma fold_weigh_infinite (target : Q)
    (recs : list InvestmentRecommendation) :
  target == 0 ->
  Forall
    (fun r =>
       0 < recommendedAmount r /\ 6.5 <= rec_expectedReturn r <= 15.8)
    recs ->
  fold_left (weigh target) recs (JS.PosInfinity, JS.PosInfinity)
  = (JS.PosInfinity, JS.PosInfinity).
Proof.
  intros Ht. induction 1 as [| r recs [Ha [Hlo Hhi]] _ IH];
    cbn [fold_left]; [reflexivity |].
  rewrite <- IH at 2. f_equal.
  unfold weigh, JS.div.
  rewrite (Qeq_eq_bool _ _ Ht).
  assert (Qeq_bool (recommendedAmount r) 0 = false) as ->.
  { destruct (Qeq_bool (recommendedAmount r) 0) eqn:E; [| reflexivity].
    apply Qeq_bool_eq in E. lra. }
  assert (Qle_bool 0 (recommendedAmount r) = true) as ->
    by (apply Qle_bool_iff; lra).
  cbn [JS.add JS.mul]. unfold JS.scale.
  assert (Qeq_bool (rec_expectedReturn r) 0 = false) as ->.
  { destruct (Qeq_bool (rec_expectedReturn r) 0) eqn:E; [| reflexivity].
    apply Qeq_bool_eq in E. lra. }
  assert (Qle_bool 0 (rec_expectedReturn r) = true) as ->
    by (apply Qle_bool_iff; lra).
  reflexivity.
Qed.

(** *** The projected return *)

Lemma projectedReturn_eq (clock : nat -> Z) (user : User)
    (p : FinancialProfile) (ra : RiskAssessment) (target : Q)
    (tw wr : JS.number) :
  fold_left (weigh target) (generateRecommendations clock user p ra)
    (JS.Finite 0, JS.Finite 0) = (tw, wr) ->
  projectedReturn (calculateOptimalPortfolio clock user p ra target)
  = if JS.gt tw 0 then JS.divide wr tw else JS.Finite 0.
Proof.
  intros H. unfold calculateOptimalPortfolio. cbv zeta. rewrite H.
  reflexivity.
Qed.

(** X2: a target amount of 0 makes every weight infinite: when anything is
    recommended the projected return is NaN.  A negative target makes the
    total weight negative and the projected return 0. *)
Theorem projected_return_without_target
    (clock : nat -> Z) (user : User) (p : FinancialProfile)
    (ra : RiskAssessment) (target : Q) :
  generateRecommendations clock user p ra <> [] ->
  (target == 0 ->
   projectedReturn (calculateOptimalPortfolio clock user p ra target)
   = JS.NaN) /\
  (target < 0 ->
   projectedReturn (calculateOptimalPortfolio clock user p ra target)
   = JS.Finite 0).
Proof.
  intros Hne.
  pose proof (generated_positive clock user p ra) as Hpos.
  split; intros Ht.
  - destruct (generateRecommendations clock user p ra) as [| r recs] eqn:E;
      [congruence |].
    rewrite <- E in Hne. 
    apply (projectedReturn_eq _ _ _ _ _ JS.PosInfinity JS.PosInfinity).
    rewrite E. cbn [fold_left].
    inversion Hpos as [| ? ? [Ha [Hlo Hhi]] Hrest]; subst.
    rewrite <- (fold_weigh_infinite target recs Ht Hrest). f_equal.
    unfold weigh, JS.div. rewrite (Qeq_eq_bool _ _ Ht).
    assert (Qeq_bool (recommendedAmount r) 0 = false) as ->.
    { destruct (Qeq_bool (recommendedAmount r) 0) eqn:E'; trivial.
      apply Qeq_bool_eq in E'. lra. }
    assert (Qle_bool 0 (recommendedAmount r) = true) as ->
      by (apply Qle_bool_iff; lra).
    cbn [JS.add JS.mul]. unfold JS.scale.
    assert (Qeq_bool (rec_expectedReturn r) 0 = false) as ->.
    { destruct (Qeq_bool (rec_expectedReturn r) 0) eqn:E'; trivial.
      apply Qeq_bool_eq in E'. lra. }
    assert (Qle_bool 0 (rec_expectedReturn r) = true) as ->
      by (apply Qle_bool_iff; lra).
    reflexivity.
  - destruct (fold_weigh_finite target
                (generateRecommendations clock user p ra) 0 0)
      as (a & b & Hf & Ha & Hb); [lra |].
    rewrite (projectedReturn_eq _ _ _ _ _ _ _ Hf).
    destruct (sums_bounds _ Hpos) as (H0 & Hp & _).
    specialize (Hp Hne).
    assert (a <= 0) as Hle.
    { rewrite Ha.
      assert (amountSum (generateRecommendations clock user p ra) / target
              == - (amountSum (generateRecommendations clock user p ra)
                    / - target)) as -> by (field; lra).
      assert (0 < amountSum (generateRecommendations clock user p ra)
                  / - target) by (apply Qlt_shift_div_l; lra).
      lra. }
    cbn [JS.gt]. apply Qle_bool_iff in Hle. rewrite Hle. reflexivity.
Qed.

Lemma projected_return_without_target_witness :
  generateRecommendations Samples.clock Samples.young Samples.comfortable
    Samples.aggressive <> [] /\
  projectedReturn
    (calculateOptimalPortfolio Samples.clock Samples.young
       Samples.comfortable Samples.aggressive 0) = JS.NaN /\
  projectedReturn
    (calculateOptimalPortfolio Samples.clock Samples.young
       Samples.comfortable Samples.aggressive (-500000)) = JS.Finite 0.
Proof.
  assert (generateRecommendations Samples.clock Samples.young
            Samples.comfortable Samples.aggressive <> []) as Hne
    by (intros E; vm_compute in E; discriminate E).
  split; [exact Hne |].
  destruct (projected_return_without_target Samples.clock Samples.young
              Samples.comfortable Samples.aggressive 0 Hne) as [H0 _].
  destruct (projected_return_without_target Samples.clock Samples.young
              Samples.comfortable Samples.aggressive (-500000) Hne)
    as [_ Hneg].
  split; [apply H0; reflexivity | apply Hneg; reflexivity].
Defined.

End Portfolio.

(** ** The list of recommendations *)

Module RecommendationList.

Import InvestmentRecommendationService Notions.
Local Open Scope Z_scope.

(** *** One recommendation for an instrument *)

Lemma catalog_types_NoDup : NoDup (type <$> bangladeshInvestments).
Proof.
  apply NoDup_ListNoDup. repeat constructor; simpl; intuition congruence.
Qed.

Lemma candidates_sublist (t : RiskTolerance) :
  sublist (filterByRiskTolerance bangladeshInvestments t)
    bangladeshInvestments.
Proof. destruct t; simpl; try apply sublist_filter. reflexivity. Qed.

Lemma candidates_length (t : RiskTolerance) :
  length (filterByRiskTolerance bangladeshInvestments t)
  = match t with
    | CONSERVATIVE => 4
    | MODERATE => 5
    | AGGRESSIVE => 6
    end%nat.
Proof. destruct t; reflexivity. Qed.

(** X3: the list returned holds at most one recommendation for an
    instrument, hence at most 4 recommendations for a conservative investor,
    5 for a moderate one and 6 for an aggressive one. *)
Theorem one_recommendation_per_instrument
    (clock : nat -> Z) (user : User) (p : FinancialProfile)
    (ra : RiskAssessment) :
  NoDup (investmentType <$> generateRecommendations clock user p ra) /\
  (length (generateRecommendations clock user p ra)
   <= match tolerance ra with
      | CONSERVATIVE => 4
      | MODERATE => 5
      | AGGRESSIVE => 6
      end)%nat.
Proof.
  pose proof (Recommendations.generated_types clock user p ra) as Hperm.
  set (kept :=
         filter (fun inv => 60 <= calculateSuitabilityScore inv user p ra)
           (filterByRiskTolerance bangladeshInvestments (tolerance ra)))
    in *.
  assert (sublist kept
            (filterByRiskTolerance bangladeshInvestments (tolerance ra)))
    as Hsub by apply sublist_filter.
  split.
  - change (NoDup (List.map investmentType
                     (generateRecommendations clock user p ra))).
    rewrite Hperm. change (NoDup (type <$> kept)).
    eapply sublist_NoDup; [apply catalog_types_NoDup |].
    apply fmap_sublist. etransitivity; [exact Hsub |].
    apply candidates_sublist.
  - apply Permutation_length in Hperm. rewrite !length_map in Hperm.
    rewrite Hperm, <- candidates_length. now apply sublist_length.
Qed.

(** *** Equal scores keep the order of the catalog *)

Section Stable.
Context {A : Type} (key : A -> Z).

(** The comparison [b.key - a.key], the one [generateRecommendations]
    sorts by. *)
Let descending (a b : A) : Z := key b - key a.

Lemma insert_stable (k : Z) (x : A) (l : list A) :
  filter (fun y => key y = k) (JS.insert descending x l)
  = filter (fun y => key y = k) (x :: l).
Proof.
  induction l as [| y l IH]; simpl; [reflexivity |].
  unfold descending at 1.
  destruct (key y - key x <=? 0) eqn:E; [reflexivity |].
  apply Z.leb_gt in E.
  destruct (decide (key y = k)) as [Hy | Hy].
  - rewrite (filter_cons_True _ y) by exact Hy.
    rewrite IH.
    assert (key x <> k) as Hx by lia.
    rewrite !(filter_cons_False _ x) by exact Hx.
    now rewrite filter_cons_True by exact Hy.
  - rewrite (filter_cons_False _ y) by exact Hy.
    rewrite IH.
    destruct (decide (key x = k)) as [Hx | Hx].
    + rewrite !(filter_cons_True _ x) by exact Hx.
      now rewrite filter_cons_False by exact Hy.
    + rewrite !(filter_cons_False _ x) by exact Hx.
      now rewrite filter_cons_False by exact Hy.
Qed.

Lemma sort_stable (k : Z) (l : list A) :
  filter (fun y => key y = k) (JS.sort descending l)
  = filter (fun y => key y = k) l.
Proof.
  induction l as [| x l IH]; simpl; [reflexivity |].
  rewrite insert_stable.
  destruct (decide (key x = k)) as [Hx | Hx].
  - rewrite !(filter_cons_True _ x) by exact Hx. now rewrite IH.
  - rewrite !(filter_cons_False _ x) by exact Hx. exact IH.
Qed.
End Stable.

(** Filtering on the second component of two lists with the same pairs. *)
Lemma filter_by_key {A B C : Type} (a : A -> C) (ka : A -> Z)
    (b : B -> C) (kb : B -> Z) (k : Z) (l : list A) (l' : list B) :
  List.map (fun x => (a x, ka x)) l = List.map (fun y => (b y, kb y)) l' ->
  List.map a (filter (fun x => ka x = k) l)
  = List.map b (filter (fun y => kb y = k) l').
Proof.
  revert l'. induction l as [| x l IH]; intros [| y l'] H;
    try discriminate H; [reflexivity |].
  injection H as Ha Hk Hrest.
  destruct (decide (ka x = k)) as [Hx | Hx].
  - rewrite filter_cons_True by exact Hx.
    rewrite filter_cons_True by congruence.
    simpl. rewrite Ha. f_equal. now apply IH.
  - rewrite filter_cons_False by exact Hx.
    rewrite filter_cons_False by congruence.
    now apply IH.
Qed.

Section Run.
Variables (clock : nat -> Z) (user : User) (p : FinancialProfile)
          (ra : RiskAssessment).

Let step :=
  visit clock user p ra (monthlyIncome p - monthlyExpenses p)
    (calculateAssetAllocation (age user) (tolerance ra)).

(** The instruments pushed and their scores, in the order of the
    catalog. *)
Lemma fold_scores (l : list BangladeshInvestmentOption)
    (st : list InvestmentRecommendation * nat) :
  List.map (fun r => (investmentType r, suitabilityScore r))
    (fst (fold_left step l st))
  = List.map (fun r => (investmentType r, suitabilityScore r)) (fst st)
    ++ List.map
         (fun inv => (type inv, calculateSuitabilityScore inv user p ra))
         (filter
            (fun inv => 60 <= calculateSuitabilityScore inv user p ra) l).
Proof.
  revert st. induction l as [| inv l IH]; intros [recs tick]; simpl.
  - now rewrite app_nil_r.
  - rewrite IH. unfold step, visit. rewrite Recommendations.amount_test.
    destruct (60 <=? calculateSuitabilityScore inv user p ra) eqn:E.
    + apply Z.leb_le in E. rewrite filter_cons_True by exact E.
      cbn [fst]. rewrite List.map_app, <- app_assoc. reflexivity.
    + apply Z.leb_gt in E. rewrite filter_cons_False by lia. reflexivity.
Qed.

(** X4: the recommendations with a given suitability score come in the
    order of the catalog: the sort moves a recommendation only past
    recommendations with another score. *)
Theorem equal_scores_in_catalog_order (s : Z) :
  investmentType
    <$> filter (fun r => suitabilityScore r = s)
          (generateRecommendations clock user p ra)
  = type
    <$> filter (fun inv => calculateSuitabilityScore inv user p ra = s)
          (filter (fun inv => 60 <= calculateSuitabilityScore inv user p ra)
             (filterByRiskTolerance bangladeshInvestments (tolerance ra))).
Proof.
  unfold generateRecommendations. cbv zeta. fold step.
  unfold bySuitability.
  rewrite (sort_stable suitabilityScore s).
  apply (filter_by_key investmentType suitabilityScore type
           (fun inv => calculateSuitabilityScore inv user p ra)).
  rewrite fold_scores. reflexivity.
Qed.
End Run.

(** The four instruments of low risk score 80 for the sample investor and
    follow the stock market and the mutual fund in the order of the
    catalog. *)
Example ties_of_the_aggressive_run :
  investmentType
    <$> filter (fun r => suitabilityScore r = 80)
          (generateRecommendations Samples.clock Samples.young
             Samples.comfortable Samples.aggressive)
  = [SANCHAYAPATRA; DPS; FIXED_DEPOSIT; BOND].
Proof. vm_compute. reflexivity. Qed.

End RecommendationList.

(** ** More on the projection *)

Module ProjectionGrowth.

Import InvestmentRecommendationService Notions.
Local Open Scope Q_scope.

Lemma round_mono (x y : Q) : x <= y -> (JS.Math_round x <= JS.Math_round y)%Z.
Proof. intros H. unfold JS.Math_round. apply Qfloor_resp_le. lra. Qed.

Lemma round_0 (x : Q) : x == 0 -> JS.Math_round x = 0%Z.
Proof.
  intros H. unfold JS.Math_round.
  rewrite (Qfloor_comp (x + 0.5) 0.5) by (rewrite H; ring). reflexivity.
Qed.

Section Recurrence.
Variables (amount annualReturn monthlyContribution : Q).

Let invested := Reference.totalInvestmentAfter amount monthlyContribution.
Let worth :=
  Reference.currentValueAfter amount annualReturn monthlyContribution.

(** Without return the value is what was paid in. *)
Lemma worth_without_return (n : nat) :
  annualReturn == 0 -> worth n == invested n.
Proof.
  intros Hr. unfold worth, invested. induction n as [| n IH].
  - reflexivity.
  - cbn [Reference.currentValueAfter Reference.totalInvestmentAfter].
    rewrite IH, Hr. field.
Qed.

Hypothesis amount_nonneg : 0 <= amount.
Hypothesis return_nonneg : 0 <= annualReturn.
Hypothesis contribution_nonneg : 0 <= monthlyContribution.

Lemma invested_nonneg (n : nat) : 0 <= invested n.
Proof.
  unfold invested. induction n as [| n IH];
    cbn [Reference.totalInvestmentAfter]; lra.
Qed.

Lemma factor_ge_1 : 1 <= 1 + annualReturn / 100.
Proof.
  assert (0 <= annualReturn / 100)
    by (apply Qle_shift_div_l; [reflexivity | lra]).
  lra.
Qed.

Lemma worth_ge_invested (n : nat) : invested n <= worth n.
Proof.
  pose proof factor_ge_1 as Hf.
  induction n as [| n IH].
  - unfold worth, invested. simpl. lra.
  - pose proof (invested_nonneg n) as H0.
    unfold worth, invested in *.
    cbn [Reference.currentValueAfter Reference.totalInvestmentAfter].
    nra.
Qed.

Lemma worth_grows (n : nat) : worth n <= worth (S n).
Proof.
  pose proof factor_ge_1 as Hf.
  pose proof (worth_ge_invested n) as Hw.
  pose proof (invested_nonneg n) as H0.
  unfold worth, invested in *. cbn [Reference.currentValueAfter]. nra.
Qed.

Lemma values_sorted (start n : nat) :
  Sorted (fun a b => (value a <= value b)%Z)
    (List.map
       (Reference.record amount annualReturn monthlyContribution)
       (seq start n)).
Proof.
  revert start. induction n as [| n IH]; intros start; simpl.
  - constructor.
  - constructor; [apply IH |].
    destruct n as [| n]; simpl; constructor.
    cbn [value Reference.record]. apply round_mono, worth_grows.
Qed.
End Recurrence.

(** X8: with an initial amount, a return and a monthly contribution that
    are not negative, no year of the projection shows a loss, the total
    return is not negative, and the value never decreases from one year to
    the next. *)
Theorem projection_never_loses
    (amount annualReturn : Q) (years : Z) (monthlyContribution : Q) :
  0 <= amount -> 0 <= annualReturn -> 0 <= monthlyContribution ->
  let P := calculateProjection amount annualReturn years
             monthlyContribution in
  (0 <= totalReturn P)%Z /\
  Forall (fun e => (0 <= return_ e)%Z) (yearlyBreakdown P) /\
  Sorted (fun a b => (value a <= value b)%Z) (yearlyBreakdown P).
Proof.
  intros Ha Hr Hc P. subst P.
  rewrite ProjectionFacts.calculateProjection_spec. cbv zeta.
  cbn [totalReturn yearlyBreakdown].
  assert (forall n,
            (0 <= JS.Math_round
                    (Reference.currentValueAfter amount annualReturn
                       monthlyContribution n
                     - Reference.totalInvestmentAfter amount
                         monthlyContribution n))%Z) as Hret.
  { intros n.
    pose proof (worth_ge_invested amount annualReturn monthlyContribution
                  Ha Hr Hc n) as Hw.
    change 0%Z with (JS.Math_round 0). apply round_mono. lra. }
  split; [apply Hret |]. split.
  - unfold Reference.breakdown. apply Forall_forall. intros e He.
    apply list_elem_of_In, in_map_iff in He as (k & <- & _).
    apply Hret.
  - apply values_sorted; assumption.
Qed.

Lemma projection_never_loses_witness :
  0 <= 100000 /\ 0 <= 8.5 /\ 0 <= 2000 /\
  (0 <= totalReturn (calculateProjection 100000 8.5 3 2000))%Z /\
  List.map value (yearlyBreakdown (calculateProjection 100000 8.5 3 2000))
  = [134540; 172016; 212677]%Z.
Proof.
  assert (0 <= 100000) as Ha by (intros H; discriminate H).
  assert (0 <= 8.5) as Hr by (intros H; discriminate H).
  assert (0 <= 2000) as Hc by (intros H; discriminate H).
  split; [exact Ha |]. split; [exact Hr |]. split; [exact Hc |].
  split; [| vm_compute; reflexivity].
  exact (proj1 (projection_never_loses 100000 8.5 3 2000 Ha Hr Hc)).
Defined.

(** X9: with an annual return of 0 the value is what was paid in: every
    entry has [value = round(investment)] and a return of 0, and so has the
    result. *)
Theorem projection_without_return
    (amount annualReturn : Q) (years : Z) (monthlyContribution : Q) :
  annualReturn == 0 ->
  let P := calculateProjection amount annualReturn years
             monthlyContribution in
  futureValue P = JS.Math_round (totalInvestment P) /\
  totalReturn P = 0%Z /\
  Forall
    (fun e => value e = JS.Math_round (investment e) /\ return_ e = 0%Z)
    (yearlyBreakdown P).
Proof.
  intros Hr P. subst P.
  rewrite ProjectionFacts.calculateProjection_spec. cbv zeta.
  cbn [futureValue totalInvestment totalReturn yearlyBreakdown].
  pose proof (worth_without_return amount annualReturn monthlyContribution)
    as Hw.
  assert (forall n,
            JS.Math_round
              (Reference.currentValueAfter amount annualReturn
                 monthlyContribution n)
            = JS.Math_round
                (Reference.totalInvestmentAfter amount monthlyContribution
                   n)) as Hval.
  { intros n. unfold JS.Math_round. apply Qfloor_comp.
    rewrite (Hw n Hr). reflexivity. }
  assert (forall n,
            JS.Math_round
              (Reference.currentValueAfter amount annualReturn
                 monthlyContribution n
               - Reference.totalInvestmentAfter amount monthlyContribution
                   n) = 0%Z) as Hret.
  { intros n. apply round_0. rewrite (Hw n Hr). ring. }
  split; [apply Hval |]. split; [apply Hret |].
  unfold Reference.breakdown. apply Forall_forall. intros e He.
  apply list_elem_of_In, in_map_iff in He as (k & <- & _).
  cbn [value investment return_ Reference.record].
  split; [apply Hval | apply Hret].
Qed.

Lemma projection_without_return_witness :
  0 == 0 /\
  totalReturn (calculateProjection 100000 0 5 2000) = 0%Z /\
  futureValue (calculateProjection 100000 0 5 2000) = 220000%Z.
Proof.
  assert (0 == 0) as H by reflexivity.
  split; [exact H |].
  destruct (projection_without_return 100000 0 5 2000 H) as (_ & Hr & _).
  split; [exact Hr | vm_compute; reflexivity].
Defined.

End ProjectionGrowth.

(** ** The questionnaire screen *)

Module Screen.

Import RiskAssessmentScreen Notions.
Local Open Scope Z_scope.

(** A question is determined by its [id]. *)
Lemma question_id_inj (q q' : Question) :
  q ∈ riskQuestions -> q' ∈ riskQuestions -> id q = id q' -> q = q'.
Proof.
  unfold riskQuestions. intros Hq Hq'.
  repeat (apply elem_of_cons in Hq as [-> | Hq]);
    try (now apply elem_of_nil in Hq);
    repeat (apply elem_of_cons in Hq' as [-> | Hq']);
    try (now apply elem_of_nil in Hq');
    simpl; intros E; first [reflexivity | discriminate E].
Qed.

Lemma answered_is_Some (answers : gmap string string) (q : Question) :
  answered answers q = true -> is_Some (answers !! id q).
Proof.
  unfold answered. destruct (answers !! id q); [eauto | discriminate].
Qed.

Lemma initial_invariant : screenInvariant initialState.
Proof.
  split; [simpl; lia |]. split.
  - simpl. intros k q Hk. lia.
  - simpl. intros q _ [a Ha]. now rewrite lookup_empty in Ha.
Qed.

Lemma currentQ_Some (st : ScreenState) (q : Question) :
  currentQ st = Some q ->
  0 <= currentQuestion st /\
  riskQuestions !! Z.to_nat (currentQuestion st) = Some q /\
  q ∈ riskQuestions.
Proof.
  unfold currentQ. destruct (currentQuestion st <? 0) eqn:E;
    [discriminate |].
  apply Z.ltb_ge in E. intros H. split; [exact E |]. split; [exact H |].
  apply list_elem_of_lookup. eauto.
Qed.

(** Touching an option records it as the answer to the current question
    and disturbs no other answer. *)
Lemma touch_invariant (st : ScreenState) (q : Question)
    (opt : QuestionOption) (i : nat) :
  screenInvariant st -> currentQ st = Some q -> options q !! i = Some opt ->
  screenInvariant (handleAnswer (id q) (opt_value opt) st).
Proof.
  intros (Hrange & Hbefore & Hvalid) Hq Hopt.
  destruct (currentQ_Some st q Hq) as (_ & _ & Hin).
  split; [exact Hrange |]. split; cbn [handleAnswer currentQuestion
                                         screen_answers].
  - intros k q' Hk Hq'.
    destruct (decide (id q = id q')) as [E | E].
    + rewrite E, lookup_insert_eq. eauto.
    + rewrite lookup_insert_ne by exact E. now apply (Hbefore k).
  - intros q' Hin' Hsome. unfold answered.
    destruct (decide (id q = id q')) as [E | E].
    + assert (q' = q) as -> by (symmetry; now apply question_id_inj).
      rewrite lookup_insert_eq. apply existsb_exists.
      exists opt. split; [| apply String.eqb_refl].
      apply list_elem_of_In, list_elem_of_lookup. eauto.
    + rewrite lookup_insert_ne in Hsome |- * by exact E.
      apply (Hvalid q' Hin' Hsome).
Qed.

Lemma isAnswered_current (st : ScreenState) :
  isAnswered st = true ->
  exists q, currentQ st = Some q /\ is_Some (screen_answers st !! id q).
Proof.
  unfold isAnswered. destruct (currentQ st) as [q |]; [| discriminate].
  intros H. apply bool_decide_eq_true in H. eauto.
Qed.

(** On the last question, with the next button enabled, every question is
    answered. *)
Lemma last_question_full (st : ScreenState) :
  screenInvariant st -> isAnswered st = true ->
  ~ currentQuestion st < Z.of_nat (length riskQuestions) - 1 ->
  fullAnswerSet (screen_answers st) = true.
Proof.
  intros (Hrange & Hbefore & Hvalid) Hans Hlast.
  destruct (isAnswered_current st Hans) as (q & Hq & Hsome).
  destruct (currentQ_Some st q Hq) as (_ & Hlook & _).
  unfold fullAnswerSet. apply forallb_forall. intros q' Hin'.
  apply list_elem_of_In in Hin'. apply Hvalid; [exact Hin' |].
  apply list_elem_of_lookup in Hin' as [k Hk].
  pose proof (lookup_lt_Some _ _ _ Hk) as Hlt.
  destruct (decide (Z.of_nat k < currentQuestion st)) as [Hlow | Hhigh].
  - now apply (Hbefore k).
  - assert (k = Z.to_nat (currentQuestion st)) as -> by lia.
    rewrite Hlook in Hk. injection Hk as <-. exact Hsome.
Qed.

(** Every event keeps the invariant, and a result is computed from a full
    answer set only. *)
Lemma dispatch_invariant (user : option string) (now : Z)
    (st : ScreenState) (e : Event) :
  screenInvariant st ->
  screenInvariant (fst (dispatch user now st e)) /\
  (forall r,
     snd (dispatch user now st e) = Some r ->
     fullAnswerSet (screen_answers st) = true /\
     r = calculateRiskScore user now (screen_answers st)).
Proof.
  intros Hinv. destruct e as [i | |]; cbn [dispatch].
  - destruct (currentQ st) as [q |] eqn:Hq; [| split; [exact Hinv |]];
      [| cbn; discriminate].
    destruct (options q !! i) as [opt |] eqn:Hopt; cbn [fst snd].
    + split; [now apply (touch_invariant st q opt i) | discriminate].
    + split; [exact Hinv | discriminate].
  - destruct (isAnswered st) eqn:Hans;
      [| split; [exact Hinv | cbn; discriminate]].
    unfold handleNext.
    destruct (currentQuestion st <? Z.of_nat (length riskQuestions) - 1)
      eqn:E; cbn [fst snd].
    + apply Z.ltb_lt in E. split; [| discriminate].
      destruct Hinv as (Hrange & Hbefore & Hvalid).
      split; [cbn [currentQuestion]; lia |].
      split; cbn [currentQuestion screen_answers].
      * intros k q Hk Hq.
        destruct (decide (Z.of_nat k < currentQuestion st)) as [Hlow | Hat].
        { now apply (Hbefore k). }
        destruct (isAnswered_current st Hans) as (q' & Hq' & Hsome).
        destruct (currentQ_Some st q' Hq') as (_ & Hlook & _).
        assert (k = Z.to_nat (currentQuestion st)) as -> by lia.
        rewrite Hlook in Hq. injection Hq as <-. exact Hsome.
      * exact Hvalid.
    + apply Z.ltb_ge in E. split; [exact Hinv |].
      intros r Hr. injection Hr as <-.
      split; [| reflexivity].
      apply last_question_full; [exact Hinv | exact Hans | lia].
  - destruct (0 <? currentQuestion st) eqn:E; cbn [fst snd];
      [| split; [exact Hinv | discriminate]].
    unfold handlePrevious. rewrite E. split; [| discriminate].
    apply Z.ltb_lt in E. destruct Hinv as (Hrange & Hbefore & Hvalid).
    split; [cbn [currentQuestion]; lia |].
      split; cbn [currentQuestion screen_answers].
    + intros k q Hk. apply Hbefore. lia.
    + exact Hvalid.
Qed.

Lemma session_invariant (user : option string) (now : Z)
    (events : list Event) (st : ScreenState)
    (results : list (RiskAssessment * Q)) :
  screenInvariant st ->
  Forall (fun r => 8 <= score (fst r) <= 32) results ->
  screenInvariant (fst (session user now events st results)) /\
  Forall (fun r => 8 <= score (fst r) <= 32)
    (snd (session user now events st results)).
Proof.
  revert st results. induction events as [| e events IH];
    intros st results Hinv Hres; cbn [session].
  - split; assumption.
  - destruct (dispatch_invariant user now st e Hinv) as [Hinv' Hout].
    destruct (dispatch user now st e) as [st' result]. cbn [fst snd] in *.
    apply IH; [exact Hinv' |].
    destruct result as [r |]; [| exact Hres].
    constructor; [| exact Hres].
    destruct (Hout r eq_refl) as [Hfull ->].
    destruct (RiskScore.calculateRiskScore_result (screen_answers st)
                user now) as (-> & _).
    now apply RiskScore.total_full.
Qed.

(** X10: whatever the user touches and presses, [currentQuestion] stays the
    index of one of the 8 questions, the questions before it stay answered
    with one of their options, and every result the screen computes comes
    from a full answer set: its raw score is in [8, 32]. *)
Theorem screen_scores_full_answer_sets
    (user : option string) (now : Z) (events : list Event) :
  let final := session user now events initialState [] in
  0 <= currentQuestion (fst final) <= 7 /\
  is_Some (currentQ (fst final)) /\
  screenInvariant (fst final) /\
  Forall (fun r => 8 <= score (fst r) <= 32) (snd final).
Proof.
  intros final. subst final.
  destruct (session_invariant user now events initialState []
              initial_invariant ltac:(constructor)) as [Hinv Hres].
  assert (Hrange := proj1 Hinv). cbn in Hrange.
  split; [lia |]. split; [| split; assumption].
  unfold currentQ.
  destruct (currentQuestion _ <? 0) eqn:E; [apply Z.ltb_lt in E; lia |].
  apply lookup_lt_is_Some. cbn. lia.
Qed.

(** Answering the eight questions with the first option shown and pressing
    next each time: the raw score is 4 + 7 = 11, a conservative
    tolerance. *)
Example first_options_session :
  let events :=
    concat (replicate 8 [TouchOption 0; PressNext]) in
  List.map (fun r => (score (fst r), tolerance (fst r)))
    (snd (session (Some "user123") 1700000000000 events initialState []))
  = [ (11, CONSERVATIVE) ].
Proof. vm_compute. reflexivity. Qed.

(** Pressing next without an answer does nothing, and so does pressing
    previous on the first question. *)
Example disabled_buttons :
  session None 0 [PressNext; PressPrevious; PressNext] initialState []
  = (initialState, []).
Proof. reflexivity. Qed.

End Screen.

(** ** Patterns *)

Module RegExpFacts.

Import RegExp Notions.

Lemma Matches_Eps (s : list N) : Matches Eps s <-> s = [].
Proof.
  split; [inversion 1; reflexivity | intros ->; constructor].
Qed.

Lemma Matches_Void (s : list N) : ~ Matches Void s.
Proof. inversion 1. Qed.

Lemma Matches_Chars (p : N -> bool) (s : list N) :
  Matches (Chars p) s <-> exists u, s = [u] /\ p u = true.
Proof.
  split.
  - inversion 1; subst. eauto.
  - intros (u & -> & Hu). now constructor.
Qed.

Lemma Matches_Cat (r1 r2 : regex) (s : list N) :
  Matches (Cat r1 r2) s
  <-> exists s1 s2, s = s1 ++ s2 /\ Matches r1 s1 /\ Matches r2 s2.
Proof.
  split.
  - inversion 1; subst. eauto.
  - intros (s1 & s2 & -> & H1 & H2). now constructor.
Qed.

Lemma Matches_Alt (r1 r2 : regex) (s : list N) :
  Matches (Alt r1 r2) s <-> Matches r1 s \/ Matches r2 s.
Proof.
  split.
  - inversion 1; subst; auto.
  - intros [H | H]; [now apply MatchesAltL | now apply MatchesAltR].
Qed.

Lemma nullable_Matches (r : regex) : nullable r = true <-> Matches r [].
Proof.
  induction r as [| | p | r1 IH1 r2 IH2 | r1 IH1 r2 IH2 | r IH]; simpl.
  - split; [discriminate | intros H; destruct (Matches_Void _ H)].
  - split; [constructor | reflexivity].
  - split; [discriminate | inversion 1].
  - rewrite andb_true_iff, IH1, IH2, Matches_Cat. split.
    + intros [H1 H2]. exists [], []. auto.
    + intros (s1 & s2 & E & H1 & H2). symmetry in E.
      apply app_eq_nil in E as [-> ->]. auto.
  - rewrite orb_true_iff, IH1, IH2, Matches_Alt. reflexivity.
  - split; [constructor | reflexivity].
Qed.

(** A match of [r*] that starts with [u] starts with a match of [r] that
    starts with [u]. *)
Lemma Matches_Star_cons (r : regex) (u : N) (s : list N) :
  Matches (Star r) (u :: s) ->
  exists s1 s2, s = s1 ++ s2 /\ Matches r (u :: s1) /\ Matches (Star r) s2.
Proof.
  intros H. remember (Star r) as r' eqn:Er. remember (u :: s) as s' eqn:Es.
  revert s Es.
  induction H as [| | | | | | r0 s1 s2 H1 _ H2 IH2]; intros t Et;
    try discriminate.
  injection Er as ->.
  destruct s1 as [| v s1]; simpl in Et.
  - apply IH2; [reflexivity | exact Et].
  - injection Et as -> <-. eauto.
Qed.

Lemma deriv_Matches (u : N) (r : regex) (s : list N) :
  Matches (deriv u r) s <-> Matches r (u :: s).
Proof.
  revert s.
  induction r as [| | p | r1 IH1 r2 IH2 | r1 IH1 r2 IH2 | r IH];
    intros s; simpl.
  - split; inversion 1.
  - split; inversion 1.
  - destruct (p u) eqn:Hp.
    + rewrite Matches_Eps, Matches_Chars. split.
      * intros ->. eauto.
      * intros (v & E & _). now injection E.
    + rewrite Matches_Chars. split; [inversion 1 |].
      intros (v & E & Hv). injection E as -> _. congruence.
  - assert (Matches (Cat (deriv u r1) r2) s
            <-> exists s1 s2,
                  s = s1 ++ s2 /\ Matches r1 (u :: s1) /\ Matches r2 s2)
      as Hcat.
    { rewrite Matches_Cat. split; intros (s1 & s2 & E & H1 & H2);
        exists s1, s2; (split; [exact E |]); (split; [| exact H2]);
        now apply IH1. }
    rewrite (Matches_Cat r1 r2 (u :: s)).
    destruct (nullable r1) eqn:Hn.
    + rewrite Matches_Alt, Hcat, IH2. split.
      * intros [(s1 & s2 & -> & H1 & H2) | H2].
        -- exists (u :: s1), s2. auto.
        -- exists [], (u :: s). split; [reflexivity |].
           split; [now apply nullable_Matches | exact H2].
      * intros (s1 & s2 & E & H1 & H2). destruct s1 as [| v s1].
        -- simpl in E. subst s2. now right.
        -- injection E as <- ->. left. eauto.
    + rewrite Hcat. split.
      * intros (s1 & s2 & -> & H1 & H2). exists (u :: s1), s2. auto.
      * intros (s1 & s2 & E & H1 & H2). destruct s1 as [| v s1].
        -- apply nullable_Matches in H1. congruence.
        -- injection E as <- ->. eauto.
  - rewrite !Matches_Alt, IH1, IH2. reflexivity.
  - rewrite Matches_Cat. split.
    + intros (s1 & s2 & -> & H1 & H2). apply IH in H1.
      now apply (MatchesStarApp r (u :: s1) s2).
    + intros H. apply Matches_Star_cons in H as (s1 & s2 & -> & H1 & H2).
      exists s1, s2. split; [reflexivity |]. split; [now apply IH | exact H2].
Qed.

(** [test] decides the language of the pattern. *)
Lemma test_Matches (r : regex) (s : list N) :
  test r s = true <-> Matches r s.
Proof.
  unfold test. revert r. induction s as [| u s IH]; intros r; simpl.
  - apply nullable_Matches.
  - rewrite IH. apply deriv_Matches.
Qed.

(** *** Repeated classes *)

Lemma Matches_Star_Chars (p : N -> bool) (s : list N) :
  Matches (Star (Chars p)) s <-> Forall (fun u => p u = true) s.
Proof.
  split.
  - intros H. remember (Star (Chars p)) as r eqn:Er.
    induction H as [| | | | | | r0 s1 s2 H1 _ H2 IH2]; try discriminate.
    + constructor.
    + injection Er as ->. apply Matches_Chars in H1 as (u & -> & Hu).
      constructor; [exact Hu | now apply IH2].
  - induction 1 as [| u s Hu _ IH]; [constructor |].
    apply (MatchesStarApp (Chars p) [u] s); [now constructor | exact IH].
Qed.

Lemma Matches_Plus_Chars (p : N -> bool) (s : list N) :
  Matches (Plus (Chars p)) s <-> s <> [] /\ Forall (fun u => p u = true) s.
Proof.
  unfold Plus. rewrite Matches_Cat. split.
  - intros (s1 & s2 & -> & H1 & H2).
    apply Matches_Chars in H1 as (u & -> & Hu).
    apply Matches_Star_Chars in H2. split; [discriminate |].
    now constructor.
  - intros [Hne H]. destruct H as [| u s Hu Hs]; [congruence |].
    exists [u], s. split; [reflexivity |].
    split; [now constructor | now apply Matches_Star_Chars].
Qed.

Lemma Matches_Times_Chars (p : N -> bool) (n : nat) (s : list N) :
  Matches (Times n (Chars p)) s
  <-> length s = n /\ Forall (fun u => p u = true) s.
Proof.
  revert s. induction n as [| n IH]; intros s; simpl.
  - rewrite Matches_Eps. split.
    + intros ->. split; [reflexivity | constructor].
    + intros [H _]. now apply nil_length_inv.
  - rewrite Matches_Cat. split.
    + intros (s1 & s2 & -> & H1 & H2).
      apply Matches_Chars in H1 as (u & -> & Hu).
      apply IH in H2 as [<- H2]. split; [reflexivity | now constructor].
    + intros [Hlen H]. destruct H as [| u s Hu Hs]; [discriminate |].
      exists [u], s. split; [reflexivity |].
      split; [now constructor |]. apply IH. simpl in Hlen. split; [lia |].
      exact Hs.
Qed.

Lemma Matches_AtLeast_Chars (p : N -> bool) (n : nat) (s : list N) :
  Matches (AtLeast n (Chars p)) s
  <-> n <= length s /\ Forall (fun u => p u = true) s.
Proof.
  unfold AtLeast. rewrite Matches_Cat. split.
  - intros (s1 & s2 & -> & H1 & H2).
    apply Matches_Times_Chars in H1 as [<- H1].
    apply Matches_Star_Chars in H2. rewrite length_app.
    split; [lia | now apply Forall_app].
  - intros [Hlen H]. exists (take n s), (drop n s).
    split; [now rewrite take_drop |]. split.
    + apply Matches_Times_Chars. split; [rewrite length_take; lia |].
      now apply Forall_take.
    + apply Matches_Star_Chars. now apply Forall_drop.
Qed.

(** A pattern made of one class for each character. *)
Lemma Matches_shape_cons (p : N -> bool) (r : regex)
    (ps : list (N -> bool)) :
  (forall s, Matches r s <-> Forall2 (fun q u => q u = true) ps s) ->
  forall s,
    Matches (Cat (Chars p) r) s
    <-> Forall2 (fun q u => q u = true) (p :: ps) s.
Proof.
  intros Hr s. rewrite Matches_Cat. split.
  - intros (s1 & s2 & -> & H1 & H2).
    apply Matches_Chars in H1 as (u & -> & Hu).
    constructor; [exact Hu | now apply Hr].
  - inversion 1 as [| ? u ? s' Hu Hs]; subst.
    exists [u], s'. split; [reflexivity |].
    split; [now constructor | now apply Hr].
Qed.

Lemma Matches_shape_Times (p : N -> bool) (n : nat) (r : regex)
    (ps : list (N -> bool)) :
  (forall s, Matches r s <-> Forall2 (fun q u => q u = true) ps s) ->
  forall s,
    Matches (Cat (Times n (Chars p)) r) s
    <-> Forall2 (fun q u => q u = true) (replicate n p ++ ps) s.
Proof.
  intros Hr. induction n as [| n IH]; intros s; simpl.
  - rewrite Matches_Cat. split.
    + intros (s1 & s2 & -> & H1 & H2). apply Matches_Eps in H1 as ->.
      now apply Hr.
    + intros H. exists [], s. split; [reflexivity |].
      split; [constructor | now apply Hr].
  - rewrite <- (Matches_shape_cons p (Cat (Times n (Chars p)) r)
                  (replicate n p ++ ps) IH).
    rewrite !Matches_Cat. split.
    + intros (s1 & s2 & -> & H1 & H2).
      apply Matches_Cat in H1 as (s0 & s1' & -> & H0 & H1).
      exists s0, (s1' ++ s2). rewrite <- app_assoc.
      split; [reflexivity |]. split; [exact H0 |].
      apply Matches_Cat. eauto.
    + intros (s0 & s' & -> & H0 & H').
      apply Matches_Cat in H' as (s1' & s2 & -> & H1 & H2).
      exists (s0 ++ s1'), s2. rewrite <- app_assoc.
      split; [reflexivity |]. split; [| exact H2].
      apply Matches_Cat. eauto.
Qed.

Lemma Matches_shape_last (p : N -> bool) (n : nat) (s : list N) :
  Matches (Times n (Chars p)) s
  <-> Forall2 (fun q u => q u = true) (replicate n p) s.
Proof.
  rewrite Matches_Times_Chars. revert s.
  induction n as [| n IH]; intros s; simpl.
  - split.
    + intros [H _]. apply nil_length_inv in H as ->. constructor.
    + inversion 1. split; [reflexivity | constructor].
  - split.
    + intros [Hlen H]. destruct H as [| u s Hu Hs]; [discriminate |].
      constructor; [exact Hu |]. apply IH. simpl in Hlen.
      split; [lia | exact Hs].
    + inversion 1 as [| ? u ? s' Hu Hs]; subst.
      apply IH in Hs as [<- Hs]. split; [reflexivity | now constructor].
Qed.

End RegExpFacts.

(** ** The security validator *)

Module Validator.

Import RegExp SecurityValidator Notions.

Lemma char_eq (c : ascii) (u : N) : char c u = true <-> u = code c.
Proof. unfold char. apply N.eqb_eq. Qed.

Lemma Matches_char (c : ascii) (s : list N) :
  Matches (Chars (char c)) s <-> s = [code c].
Proof.
  rewrite RegExpFacts.Matches_Chars. split.
  - intros (u & -> & Hu). apply char_eq in Hu. now subst.
  - intros ->. exists (code c). split; [reflexivity | now apply char_eq].
Qed.

(** *** [validateEmail] *)

(** The parts of a string the regular expression of [validateEmail]
    matches. *)
Lemma validateEmail_parts (email : list N) :
  validateEmail email = true ->
  exists local domain tld : list N,
    email = local ++ [code "@"] ++ domain ++ [code "."] ++ tld /\
    local <> [] /\
    Forall (fun u => localChar u = true) local /\
    domain <> [] /\
    Forall (fun u => domainChar u = true) domain /\
    2 <= length tld /\
    Forall (fun u => letter u = true) tld.
Proof.
  unfold validateEmail, emailRegex. rewrite RegExpFacts.test_Matches.
  rewrite RegExpFacts.Matches_Cat.
  intros (l & s1 & -> & Hl & H1).
  apply RegExpFacts.Matches_Cat in H1 as (a & s2 & -> & Ha & H2).
  apply RegExpFacts.Matches_Cat in H2 as (d & s3 & -> & Hd & H3).
  apply RegExpFacts.Matches_Cat in H3 as (o & t & -> & Ho & Ht).
  apply Matches_char in Ha as ->. apply Matches_char in Ho as ->.
  apply RegExpFacts.Matches_Plus_Chars in Hl as [Hl1 Hl2].
  apply RegExpFacts.Matches_Plus_Chars in Hd as [Hd1 Hd2].
  apply RegExpFacts.Matches_AtLeast_Chars in Ht as [Ht1 Ht2].
  exists l, d, t. repeat split; assumption.
Qed.

(** X11: [validateEmail] accepts exactly the strings [local@domain.tld]
    where [local] is a non-empty string of letters, digits and [._%+-],
    [domain] a non-empty string of letters, digits, dots and hyphens, and
    [tld] a string of at least two letters. *)
Theorem validateEmail_shape (email : list N) :
  validateEmail email = true
  <-> exists local domain tld : list N,
        email = local ++ [code "@"] ++ domain ++ [code "."] ++ tld /\
        local <> [] /\
        Forall (fun u => localChar u = true) local /\
        domain <> [] /\
        Forall (fun u => domainChar u = true) domain /\
        2 <= length tld /\
        Forall (fun u => letter u = true) tld.
Proof.
  split; [apply validateEmail_parts |].
  unfold validateEmail, emailRegex. rewrite RegExpFacts.test_Matches.
  rewrite RegExpFacts.Matches_Cat.
  intros (l & d & t & -> & Hl1 & Hl2 & Hd1 & Hd2 & Ht1 & Ht2).
  exists l, ([code "@"] ++ d ++ [code "."] ++ t).
  split; [reflexivity |].
  split; [now apply RegExpFacts.Matches_Plus_Chars |].
  apply RegExpFacts.Matches_Cat.
  exists [code "@"], (d ++ [code "."] ++ t). split; [reflexivity |].
  split; [now apply Matches_char |].
  apply RegExpFacts.Matches_Cat.
  exists d, ([code "."] ++ t). split; [reflexivity |].
  split; [now apply RegExpFacts.Matches_Plus_Chars |].
  apply RegExpFacts.Matches_Cat.
  exists [code "."], t. split; [reflexivity |].
  split; [now apply Matches_char |].
  now apply RegExpFacts.Matches_AtLeast_Chars.
Qed.

Lemma class_not_at (u : N) :
  localChar u = true \/ domainChar u = true \/ letter u = true
  \/ u = code "." ->
  u <> code "@" /\ u <> code " ".
Proof.
  intros H. split; intros ->; vm_compute in H; intuition discriminate.
Qed.

Lemma count_none (c : N) (s : list N) :
  Forall (fun u => u <> c) s -> count_occ N.eq_dec s c = 0%nat.
Proof.
  induction 1 as [| u s Hu _ IH]; simpl; [reflexivity |].
  destruct (N.eq_dec u c); [contradiction | exact IH].
Qed.

(** X12: an address [validateEmail] accepts has exactly one [@], no space
    and at least six characters. *)
Theorem validateEmail_accepts (email : list N) :
  validateEmail email = true ->
  count_occ N.eq_dec email (code "@") = 1%nat /\
  count_occ N.eq_dec email (code " ") = 0%nat /\
  6 <= length email.
Proof.
  intros H.
  apply validateEmail_parts in H
    as (l & d & t & -> & Hl1 & Hl2 & Hd1 & Hd2 & Ht1 & Ht2).
  assert (Forall (fun u => u <> code "@" /\ u <> code " ") l) as Hl.
  { eapply Forall_impl; [exact Hl2 |]. intros u Hu. apply class_not_at.
    auto. }
  assert (Forall (fun u => u <> code "@" /\ u <> code " ") d) as Hd.
  { eapply Forall_impl; [exact Hd2 |]. intros u Hu. apply class_not_at.
    auto. }
  assert (Forall (fun u => u <> code "@" /\ u <> code " ") t) as Ht.
  { eapply Forall_impl; [exact Ht2 |]. intros u Hu. apply class_not_at.
    auto. }
  assert (forall s,
            Forall (fun u => u <> code "@" /\ u <> code " ") s ->
            count_occ N.eq_dec s (code "@") = 0%nat /\
            count_occ N.eq_dec s (code " ") = 0%nat) as Hcount.
  { intros s Hs. split; apply count_none;
      (eapply Forall_impl; [exact Hs |]); intros u [? ?]; assumption. }
  destruct (Hcount l Hl) as [Hl_at Hl_sp].
  destruct (Hcount d Hd) as [Hd_at Hd_sp].
  destruct (Hcount t Ht) as [Ht_at Ht_sp].
  rewrite !count_occ_app, !length_app.
  rewrite Hl_at, Hd_at, Ht_at, Hl_sp, Hd_sp, Ht_sp.
  split; [reflexivity |]. split; [reflexivity |].
  destruct l; [congruence |]. destruct d; [congruence |]. simpl. lia.
Qed.

Lemma validateEmail_accepts_witness :
  validateEmail (units "demo@example.com") = true /\
  count_occ N.eq_dec (units "demo@example.com") (code "@") = 1%nat /\
  6 <= length (units "demo@example.com").
Proof.
  assert (validateEmail (units "demo@example.com") = true) as H
    by reflexivity.
  split; [exact H |].
  destruct (validateEmail_accepts _ H) as (H1 & _ & H6).
  split; assumption.
Defined.

Example emails :
  List.map (fun s => validateEmail (units s))
    [ "demo@example.com"; "a@b.co"; "a@b.c"; "a b@c.com"; "@b.co";
      "a@@b.co"; "a@b..com"; "a@b.co1" ]
  = [ true; true; false; false; false; false; true; false ].
Proof. vm_compute. reflexivity. Qed.

(** *** [isValidUUID] *)

(** X13: [isValidUUID] accepts exactly the strings of 36 characters with
    hyphens at the positions 8, 13, 18 and 23, the digit 4 at position 14,
    one of [89abAB] at position 19 and hexadecimal digits of either case
    elsewhere. *)
Theorem isValidUUID_shape (uuid : list N) :
  (isValidUUID uuid = true
   <-> Forall2 (fun p u => p u = true) uuidShape uuid) /\
  (isValidUUID uuid = true ->
   length uuid = 36 /\
   uuid !! 14%nat = Some (code "4") /\
   Forall (fun i => uuid !! i = Some (code "-")) [8; 13; 18; 23]%nat /\
   exists v, uuid !! 19%nat = Some v /\ variant v = true).
Proof.
  assert (isValidUUID uuid = true
          <-> Forall2 (fun p u => p u = true) uuidShape uuid) as Hiff.
  { unfold isValidUUID, uuidRegex, uuidShape.
    rewrite RegExpFacts.test_Matches.
    repeat first
      [ apply RegExpFacts.Matches_shape_Times; intros ?
      | apply (RegExpFacts.Matches_shape_cons _ _ _); intros ?
      | apply (RegExpFacts.Matches_shape_cons _ _ []) ].
    apply (RegExpFacts.Matches_shape_last hex 0). }
  split; [exact Hiff |]. intros H. apply Hiff in H.
  assert (forall i p,
            uuidShape !! i = Some p ->
            exists u, uuid !! i = Some u /\ p u = true) as Hat.
  { intros i p Hp. eapply Forall2_lookup_l in H; [| exact Hp].
    exact H. }
  split; [symmetry; apply (Forall2_length _ _ _ H) |].
  split.
  { destruct (Hat 14%nat (char "4") eq_refl) as (u & -> & Hu).
    apply char_eq in Hu. now subst. }
  split.
  { repeat constructor;
      match goal with
      | |- uuid !! ?i = _ =>
          destruct (Hat i (char "-") eq_refl) as (u & -> & Hu);
          apply char_eq in Hu; now subst
      end. }
  exact (Hat 19%nat variant eq_refl).
Qed.

Lemma isValidUUID_shape_witness :
  isValidUUID (units "123e4567-e89b-42d3-A456-426614174000") = true /\
  length (units "123e4567-e89b-42d3-A456-426614174000") = 36.
Proof.
  assert (isValidUUID (units "123e4567-e89b-42d3-A456-426614174000")
          = true) as H by reflexivity.
  split; [exact H |].
  exact (proj1 (proj2 (isValidUUID_shape _) H)).
Defined.

Example uuids :
  List.map (fun s => isValidUUID (units s))
    [ "123e4567-e89b-42d3-a456-426614174000";
      "123e4567-e89b-12d3-a456-426614174000";
      "123e4567-e89b-42d3-c456-426614174000";
      "123e4567e89b42d3a456426614174000" ]
  = [ true; false; false; false ].
Proof. vm_compute. reflexivity. Qed.

End Validator.

(** ** Passwords *)

Module Passwords.

Import RegExp SecurityValidator Notions.
Local Open Scope Z_scope.

(** The tests on the length, as inequalities. *)
Ltac lengths :=
  repeat match goal with
         | H : (_ <=? _)%nat = true |- _ => apply Nat.leb_le in H
         | H : (_ <=? _)%nat = false |- _ => apply Nat.leb_gt in H
         end.

Lemma leb_trans_8_12 (n : nat) :
  (12 <=? n)%nat = true -> (8 <=? n)%nat = true.
Proof. rewrite !Nat.leb_le. lia. Qed.

(** X14: the strength of a password is between 0 and 6; a password
    [validatePassword] accepts has a strength of 5 at least and is strong
    for [isStrongPassword]; the strength is 6 exactly for the passwords
    [validatePassword] accepts that have 12 characters or more. *)
Theorem valid_passwords_are_strong (password : list N) :
  0 <= calculatePasswordStrength password <= 6 /\
  (validatePassword password = true ->
   5 <= calculatePasswordStrength password /\
   isStrongPassword password = true) /\
  (calculatePasswordStrength password = 6
   <-> validatePassword password = true
       /\ (12 <=? length password)%nat = true).
Proof.
  unfold isStrongPassword, validatePassword, calculatePasswordStrength.
  cbv zeta.
  destruct (8 <=? length password)%nat eqn:E8;
    destruct (12 <=? length password)%nat eqn:E12;
    destruct (existsb upper password);
    destruct (existsb lower password);
    destruct (existsb digit password);
    destruct (existsb special password);
    try (apply leb_trans_8_12 in E12; congruence);
    simpl; repeat split; intros; try lia; try reflexivity;
    try discriminate; intuition (try discriminate; try lia).
Qed.

Lemma valid_passwords_are_strong_witness :
  validatePassword (units "Passw0rd!") = true /\
  calculatePasswordStrength (units "Passw0rd!") = 5 /\
  isStrongPassword (units "Passw0rd!") = true.
Proof.
  assert (validatePassword (units "Passw0rd!") = true) as H by reflexivity.
  split; [exact H |]. split; [reflexivity |].
  exact (proj2 (proj1 (proj2 (valid_passwords_are_strong _)) H)).
Defined.

(** X15: [isStrongPassword] does not ask for a length: it accepts every
    password with an uppercase letter, a lowercase letter, a digit and a
    special character, and these four are what a strong password shorter
    than 8 characters has, a password [validatePassword] rejects. *)
Theorem strong_without_length (password : list N) :
  (existsb upper password = true -> existsb lower password = true ->
   existsb digit password = true -> existsb special password = true ->
   isStrongPassword password = true) /\
  (isStrongPassword password = true -> (length password < 8)%nat ->
   existsb upper password = true /\ existsb lower password = true /\
   existsb digit password = true /\ existsb special password = true /\
   validatePassword password = false).
Proof.
  unfold isStrongPassword, validatePassword, calculatePasswordStrength.
  cbv zeta. split.
  - intros -> -> -> ->.
    destruct (8 <=? length password)%nat, (12 <=? length password)%nat;
      reflexivity.
  - intros H Hlen.
    assert ((8 <=? length password)%nat = false) as E8
      by (apply Nat.leb_gt; lia).
    assert ((12 <=? length password)%nat = false) as E12
      by (apply Nat.leb_gt; lia).
    rewrite E8, E12 in *.
    destruct (existsb upper password), (existsb lower password),
      (existsb digit password), (existsb special password);
      simpl in *; try discriminate; repeat split.
Qed.

Lemma strong_without_length_witness :
  isStrongPassword (units "aA1!") = true /\
  (length (units "aA1!") < 8)%nat /\
  validatePassword (units "aA1!") = false.
Proof.
  assert (isStrongPassword (units "aA1!") = true) as H by reflexivity.
  assert (length (units "aA1!") < 8)%nat as Hlen by (simpl; lia).
  split; [exact H |]. split; [exact Hlen |].
  destruct (proj2 (strong_without_length _) H Hlen) as (_ & _ & _ & _ & Hv).
  exact Hv.
Defined.

(** *** Longer passwords *)

Lemma existsb_app_l {A : Type} (f : A -> bool) (l l' : list A) :
  existsb f l = true -> existsb f (l ++ l') = true.
Proof. intros H. rewrite existsb_app, H. reflexivity. Qed.

(** X16: adding characters at the end of a password never lowers its
    strength and never makes [validatePassword] or [isStrongPassword]
    reject it. *)
Theorem longer_is_not_weaker (password more : list N) :
  calculatePasswordStrength password
  <= calculatePasswordStrength (password ++ more) /\
  (validatePassword password = true ->
   validatePassword (password ++ more) = true) /\
  (isStrongPassword password = true ->
   isStrongPassword (password ++ more) = true).
Proof.
  assert (calculatePasswordStrength password
          <= calculatePasswordStrength (password ++ more)) as Hle.
  { unfold calculatePasswordStrength. cbv zeta.
    rewrite !existsb_app, length_app.
    destruct (8 <=? length password)%nat eqn:E8;
      destruct (12 <=? length password)%nat eqn:E12;
      destruct (8 <=? length password + length more)%nat eqn:F8;
      destruct (12 <=? length password + length more)%nat eqn:F12;
      lengths; try lia;
      destruct (existsb upper password), (existsb lower password),
        (existsb digit password), (existsb special password),
        (existsb upper more), (existsb lower more),
        (existsb digit more), (existsb special more); simpl; lia. }
  split; [exact Hle |]. split.
  - unfold validatePassword. cbv zeta. rewrite !andb_true_iff.
    intros ((((H8 & Hu) & Hl) & Hd) & Hs).
    repeat split; try now apply existsb_app_l.
    apply Nat.leb_le in H8. apply Nat.leb_le. rewrite length_app. lia.
  - unfold isStrongPassword. rewrite !Z.leb_le. lia.
Qed.

Lemma longer_is_not_weaker_witness :
  validatePassword (units "Passw0rd!") = true /\
  validatePassword (units "Passw0rd!" ++ units "123") = true /\
  calculatePasswordStrength (units "Passw0rd!" ++ units "123") = 6.
Proof.
  assert (validatePassword (units "Passw0rd!") = true) as H by reflexivity.
  split; [exact H |].
  split; [| reflexivity].
  exact (proj1 (proj2 (longer_is_not_weaker (units "Passw0rd!")
                         (units "123"))) H).
Defined.

End Passwords.

(** ** [sanitizeInput] *)

Module Sanitizer.

Import RegExp SecurityValidator Notions.

Lemma replaceAll_app (c : N) (by_ s1 s2 : list N) :
  replaceAll c by_ (s1 ++ s2) = replaceAll c by_ s1 ++ replaceAll c by_ s2.
Proof. unfold replaceAll. apply flat_map_app. Qed.

Lemma sanitizeInput_app (s1 s2 : list N) :
  sanitizeInput (s1 ++ s2) = sanitizeInput s1 ++ sanitizeInput s2.
Proof. unfold sanitizeInput. now rewrite !replaceAll_app. Qed.

Lemma escape_unfold (u : N) :
  escape u =
  if (u =? 38)%N then units "&amp;"
  else if (u =? 60)%N then units "&lt;"
  else if (u =? 62)%N then units "&gt;"
  else if (u =? 34)%N then units "&quot;"
  else if (u =? 39)%N then units "&#x27;"
  else if (u =? 47)%N then units "&#x2F;"
  else [u].
Proof. reflexivity. Qed.

Lemma replaced_unfold (u : N) :
  replaced u =
  ((u =? 38) || ((u =? 60) || ((u =? 62) || ((u =? 39) || ((u =? 47)
   || false)))) || (u =? 34))%N.
Proof. reflexivity. Qed.

Lemma markup_unfold (u : N) :
  markup u =
  ((u =? 60) || ((u =? 62) || ((u =? 39) || ((u =? 47) || false)))
   || (u =? 34))%N.
Proof. reflexivity. Qed.

Lemma replaceAll_miss (c u : N) (by_ : list N) :
  (u =? c)%N = false -> replaceAll c by_ [u] = [u].
Proof. intros H. unfold replaceAll. cbn [flat_map]. now rewrite H. Qed.

(** What is written for one character: an entity for each of the six
    characters, the character itself for another one. *)
Lemma escape_cases (u : N) :
  (u = 38%N /\ escape u = units "&amp;") \/
  (u = 60%N /\ escape u = units "&lt;") \/
  (u = 62%N /\ escape u = units "&gt;") \/
  (u = 34%N /\ escape u = units "&quot;") \/
  (u = 39%N /\ escape u = units "&#x27;") \/
  (u = 47%N /\ escape u = units "&#x2F;") \/
  (replaced u = false /\ u <> 38%N /\ escape u = [u]).
Proof.
  destruct (N.eq_dec u 38%N) as [-> | H38]; [now left |].
  destruct (N.eq_dec u 60%N) as [-> | H60]; [now right; left |].
  destruct (N.eq_dec u 62%N) as [-> | H62]; [now right; right; left |].
  destruct (N.eq_dec u 34%N) as [-> | H34]; [now right; right; right; left |].
  destruct (N.eq_dec u 39%N) as [-> | H39];
    [now right; right; right; right; left |].
  destruct (N.eq_dec u 47%N) as [-> | H47];
    [now right; right; right; right; right; left |].
  do 6 right.
  apply N.eqb_neq in H38 as E38. apply N.eqb_neq in H60 as E60.
  apply N.eqb_neq in H62 as E62. apply N.eqb_neq in H34 as E34.
  apply N.eqb_neq in H39 as E39. apply N.eqb_neq in H47 as E47.
  split; [| split; [exact H38 |]].
  - now rewrite replaced_unfold, E38, E60, E62, E34, E39, E47.
  - now rewrite escape_unfold, E38, E60, E62, E34, E39, E47.
Qed.

Lemma sanitizeInput_single (u : N) : sanitizeInput [u] = escape u.
Proof.
  destruct (escape_cases u)
    as [[-> ->] | [[-> ->] | [[-> ->] | [[-> ->] | [[-> ->] | [[-> ->]
        | (Hr & _ & ->)]]]]]]; try reflexivity.
  rewrite replaced_unfold, !orb_false_iff in Hr.
  destruct Hr as [(E38 & E60 & E62 & E39 & E47 & _) E34].
  unfold sanitizeInput.
  rewrite (replaceAll_miss (code "&") u _ E38).
  rewrite (replaceAll_miss (code "<") u _ E60).
  rewrite (replaceAll_miss (code ">") u _ E62).
  rewrite (replaceAll_miss quote u _ E34).
  rewrite (replaceAll_miss (code "'") u _ E39).
  apply (replaceAll_miss (code "/") u _ E47).
Qed.

(** The six replacements made one after the other come to one pass over
    the string. *)
Lemma sanitizeInput_one_pass (s : list N) :
  sanitizeInput s = flat_map escape s.
Proof.
  induction s as [| u s IH]; [reflexivity |].
  change (u :: s) with ([u] ++ s).
  rewrite sanitizeInput_app, sanitizeInput_single, IH. reflexivity.
Qed.

Lemma markup_replaced (u : N) : markup u = true -> replaced u = true.
Proof.
  rewrite markup_unfold, replaced_unfold.
  destruct (u =? 38)%N, (u =? 60)%N, (u =? 62)%N, (u =? 39)%N,
    (u =? 47)%N, (u =? 34)%N; simpl; auto.
Qed.

(** X17: [sanitizeInput] is one pass replacing each of the six characters
    by its entity; the result holds no [<], [>], double quote, quote or
    slash, and sanitizing a concatenation is concatenating the sanitized
    parts. *)
Theorem sanitizeInput_removes_markup (s s' : list N) :
  sanitizeInput s = flat_map escape s /\
  Forall (fun u => markup u = false) (sanitizeInput s) /\
  sanitizeInput (s ++ s') = sanitizeInput s ++ sanitizeInput s'.
Proof.
  split; [apply sanitizeInput_one_pass |].
  split; [| apply sanitizeInput_app].
  rewrite sanitizeInput_one_pass.
  induction s as [| u s IH]; simpl; [constructor |].
  apply Forall_app. split; [| exact IH].
  destruct (escape_cases u)
    as [[-> ->] | [[-> ->] | [[-> ->] | [[-> ->] | [[-> ->] | [[-> ->]
        | (Hr & _ & ->)]]]]]]; try (repeat constructor).
  destruct (markup u) eqn:E; [| reflexivity].
  apply markup_replaced in E. congruence.
Qed.

(** *** What it leaves unchanged *)

Lemma escape_length (u : N) :
  1 <= length (escape u) /\
  (length (escape u) = 1 -> replaced u = false).
Proof.
  destruct (escape_cases u)
    as [[-> ->] | [[-> ->] | [[-> ->] | [[-> ->] | [[-> ->] | [[-> ->]
        | (Hr & _ & ->)]]]]]]; simpl; split; try lia; auto.
Qed.

Lemma one_pass_length (s : list N) :
  length s <= length (flat_map escape s) /\
  (length (flat_map escape s) = length s ->
   Forall (fun u => replaced u = false) s).
Proof.
  induction s as [| u s [IHle IHeq]]; simpl.
  - split; [lia | constructor].
  - rewrite length_app. destruct (escape_length u) as [H1 Heq].
    split; [lia |]. intros H.
    constructor; [apply Heq; lia | apply IHeq; lia].
Qed.

Lemma one_pass_clean (s : list N) :
  Forall (fun u => replaced u = false) s -> flat_map escape s = s.
Proof.
  induction 1 as [| u s Hu _ IH]; simpl; [reflexivity |].
  destruct (escape_cases u)
    as [[-> _] | [[-> _] | [[-> _] | [[-> _] | [[-> _] | [[-> _]
        | (_ & _ & ->)]]]]]]; try discriminate Hu.
  simpl. now rewrite IH.
Qed.

Lemma ampersand_replaced_in (s : list N) :
  Forall (fun u => replaced u = false) (flat_map escape s) ->
  Forall (fun u => replaced u = false) s.
Proof.
  induction s as [| u s IH]; simpl; [constructor |].
  intros H. apply Forall_app in H as [Hu Hs].
  constructor; [| now apply IH].
  destruct (escape_cases u)
    as [[-> E] | [[-> E] | [[-> E] | [[-> E] | [[-> E] | [[-> E]
        | (Hr & _ & _)]]]]]]; try exact Hr;
    rewrite E in Hu; inversion Hu as [| ? ? Hamp _]; discriminate Hamp.
Qed.

(** X18: [sanitizeInput] never shortens a string, leaves unchanged exactly
    the strings without any of the six characters, and is idempotent on
    these strings only: a second call escapes the ampersands of the
    first. *)
Theorem sanitizeInput_fixpoints (s : list N) :
  length s <= length (sanitizeInput s) /\
  (sanitizeInput s = s <-> Forall (fun u => replaced u = false) s) /\
  (sanitizeInput (sanitizeInput s) = sanitizeInput s
   <-> Forall (fun u => replaced u = false) s).
Proof.
  assert (forall t,
            sanitizeInput t = t <-> Forall (fun u => replaced u = false) t)
    as Hfix.
  { intros t. rewrite sanitizeInput_one_pass. split.
    - intros H. apply one_pass_length. now rewrite H.
    - apply one_pass_clean. }
  split; [rewrite sanitizeInput_one_pass; apply one_pass_length |].
  split; [apply Hfix |].
  rewrite Hfix. split.
  - rewrite sanitizeInput_one_pass. apply ampersand_replaced_in.
  - intros H. apply Hfix in H as Hs. now rewrite Hs.
Qed.

(** *** Nothing is lost *)

Lemma escape_not_nil (u : N) (s : list N) : escape u ++ s <> [].
Proof.
  destruct (escape_cases u)
    as [[-> ->] | [[-> ->] | [[-> ->] | [[-> ->] | [[-> ->] | [[-> ->]
        | (_ & _ & ->)]]]]]]; discriminate.
Qed.

(** X19: [sanitizeInput] is injective: two strings with the same result
    are the same string, as no entity is the beginning of another and a
    character left as it is is not an ampersand. *)
Theorem sanitizeInput_injective (s1 s2 : list N) :
  sanitizeInput s1 = sanitizeInput s2 -> s1 = s2.
Proof.
  rewrite !sanitizeInput_one_pass. revert s2.
  induction s1 as [| u s1 IH]; intros [| v s2] H; cbn [flat_map] in H.
  - reflexivity.
  - symmetry in H. now apply escape_not_nil in H.
  - now apply escape_not_nil in H.
  - destruct (escape_cases u)
      as [[-> Eu] | [[-> Eu] | [[-> Eu] | [[-> Eu] | [[-> Eu] | [[-> Eu]
          | (_ & Hu & Eu)]]]]]];
      destruct (escape_cases v)
        as [[-> Ev] | [[-> Ev] | [[-> Ev] | [[-> Ev] | [[-> Ev] | [[-> Ev]
            | (_ & Hv & Ev)]]]]]];
      rewrite Eu in H; try rewrite Ev in H; simpl in H; simplify_eq;
      f_equal; now apply IH.
Qed.

Lemma sanitizeInput_injective_witness :
  sanitizeInput (units "a<b") = sanitizeInput (units "a<b") /\
  sanitizeInput (units "a<b") = units "a&lt;b" /\
  units "a<b" = units "a<b".
Proof.
  assert (sanitizeInput (units "a<b") = sanitizeInput (units "a<b")) as H
    by reflexivity.
  split; [exact H |]. split; [reflexivity |].
  exact (sanitizeInput_injective _ _ H).
Defined.

Example sanitized_link :
  sanitizeInput (units "<a href='x'>&</a>")
  = units "&lt;a href=&#x27;x&#x27;&gt;&amp;&lt;&#x2F;a&gt;" /\
  sanitizeInput (sanitizeInput (units "&")) = units "&amp;amp;".
Proof. split; reflexivity. Qed.

End Sanitizer.

(** ** From a recommendation to the details of its instrument *)

Module Details.

Import InvestmentRecommendationService Notions.
Local Open Scope Q_scope.

(** [getInvestmentDetails] finds the instrument of the catalog with the
    type asked for. *)
Lemma getInvestmentDetails_spec (t : InvestmentType)
    (inv : BangladeshInvestmentOption) :
  getInvestmentDetails t = Some inv
  <-> inv ∈ bangladeshInvestments /\ type inv = t.
Proof.
  unfold getInvestmentDetails. split.
  - intros H. apply find_some in H as [Hin Ht].
    split; [now apply list_elem_of_In | now apply bool_decide_eq_true in Ht].
  - intros [Hin <-]. unfold bangladeshInvestments in Hin.
    repeat (apply elem_of_cons in Hin as [-> | Hin]);
      try (now apply elem_of_nil in Hin); reflexivity.
Qed.

(** X20: [getInvestmentDetails] returns the one instrument of the catalog
    with the type asked for; for the type of any recommendation
    generated it returns an instrument, the one whose expected return,
    risk level, advantages and drawbacks the recommendation copies, and
    whose minimum the recommended amount reaches. *)
Theorem recommendation_has_details
    (clock : nat -> Z) (user : User) (p : FinancialProfile)
    (ra : RiskAssessment) :
  (forall t inv,
     getInvestmentDetails t = Some inv
     <-> inv ∈ bangladeshInvestments /\ type inv = t) /\
  Forall
    (fun r =>
       exists inv,
         getInvestmentDetails (investmentType r) = Some inv /\
         rec_expectedReturn r = expectedReturn inv /\
         rec_riskLevel r = riskLevel inv /\
         rec_pros r = pros inv /\ rec_cons r = cons inv /\
         rec_userId r = user_id user /\
         minInvestment inv <= recommendedAmount r /\
         JS.ltb (recommendedAmount r) (minInvestment inv) = false)
    (generateRecommendations clock user p ra).
Proof.
  split; [apply getInvestmentDetails_spec |].
  apply Portfolio.generated_Forall. intros inv tick Hin _.
  exists inv. cbn.
  pose proof (Recommendations.amount_test inv
                (monthlyIncome p - monthlyExpenses p)
                (calculateAssetAllocation (age user) (tolerance ra)))
    as Htest.
  repeat split; trivial.
  - now apply getInvestmentDetails_spec.
  - now apply JSFacts.geb_ge.
  - unfold JS.ltb. unfold JS.geb in Htest. now rewrite Htest.
Qed.

End Details.

(** ** The store of investments *)

Module Store.

Import InvestmentRecommendationService Notions.
Import InvestmentStore.

(** X21: [deleteInvestment] keeps, in their order, the investments with
    another id and removes every one with the id given; with an id no
    investment has, it changes nothing and sets no error; a second call
    changes nothing. *)
Theorem deleteInvestment_removes (id : string) (state : InvestmentState) :
  let state' := deleteInvestment id state in
  (forall inv,
     inv ∈ investments state'
     <-> inv ∈ investments state /\ inv_id inv <> id) /\
  sublist (investments state') (investments state) /\
  (investments state' = investments state
   <-> Forall (fun inv => inv_id inv <> id) (investments state)) /\
  deleteInvestment id state' = state' /\
  recommendations state' = recommendations state /\
  isLoading state' = false /\ error state' = None.
Proof.
  cbn. split; [| split; [| split; [| split]]].
  - intros inv. rewrite (list_elem_of_filter (fun inv => inv_id inv <> id)).
    tauto.
  - apply sublist_filter.
  - split.
    + intros H. rewrite <- H. apply Forall_forall. intros inv Hin.
      now apply (list_elem_of_filter (fun inv => inv_id inv <> id)) in Hin.
    + intros H. induction H as [| inv l Hinv _ IH]; [reflexivity |].
      rewrite filter_cons_True by exact Hinv. now rewrite IH.
  - unfold deleteInvestment. cbn. f_equal.
    apply list_filter_filter_l. auto.
  - auto.
Qed.

(** X22: deleting the id of an investment just added gives the list of
    the deletion without the addition: the list of before when no
    investment had this id, a shorter one when one had. *)
Theorem add_then_delete (investment : Investment) (state : InvestmentState) :
  let state' :=
    deleteInvestment (inv_id investment) (addInvestment investment state) in
  investments state'
  = investments (deleteInvestment (inv_id investment) state) /\
  (Forall (fun inv => inv_id inv <> inv_id investment) (investments state)
   -> investments state' = investments state) /\
  (Exists (fun inv => inv_id inv = inv_id investment) (investments state)
   -> (length (investments state') < length (investments state))%nat).
Proof.
  cbn.
  assert (forall l,
            filter (fun inv => inv_id inv <> inv_id investment)
              (l ++ [investment])
            = filter (fun inv => inv_id inv <> inv_id investment) l) as E.
  { intros l. rewrite filter_app, filter_cons_False by auto.
    rewrite filter_nil. apply app_nil_r. }
  rewrite E. clear E. split; [reflexivity |]. split.
  - intros H. induction H as [| inv l Hinv _ IH]; [reflexivity |].
    rewrite filter_cons_True by exact Hinv. now rewrite IH.
  - intros H. induction H as [inv l Hinv | inv l _ IH].
    + rewrite filter_cons_False by auto.
      pose proof (length_filter
                    (fun inv => inv_id inv <> inv_id investment) l).
      cbn. lia.
    + destruct (decide (inv_id inv <> inv_id investment)) as [Hinv | Hinv].
      * rewrite filter_cons_True by exact Hinv. cbn. lia.
      * rewrite filter_cons_False by exact Hinv.
        pose proof (length_filter
                      (fun inv => inv_id inv <> inv_id investment) l).
        cbn. lia.
Qed.

Lemma add_then_delete_witness :
  let investment :=
    {| inv_id := "1700000000000"; inv_userId := "user123";
       inv_name := "5-Year Sanchayapatra"; inv_type := SANCHAYAPATRA;
       inv_amount := 100000; inv_currentValue := 100000;
       inv_expectedReturn := 8.5; isActive := true |} in
  let state := addInvestment investment initialState in
  Exists (fun inv => inv_id inv = inv_id investment) (investments state) /\
  investments
    (deleteInvestment (inv_id investment) (addInvestment investment state))
  = [] /\
  (length
     (investments
        (deleteInvestment (inv_id investment)
           (addInvestment investment state)))
   < length (investments state))%nat.
Proof.
  intros investment state.
  assert (Exists (fun inv => inv_id inv = inv_id investment)
            (investments state)) as H by (left; reflexivity).
  split; [exact H |]. split; [reflexivity |].
  exact (proj2 (proj2 (add_then_delete investment state)) H).
Defined.

(** X23: [updateInvestment] keeps the number of investments and their
    ids; it puts the investment given at every place of its id and
    leaves the other places; with an id no investment has, it changes
    nothing and sets no error. *)
Theorem updateInvestment_replaces
    (updatedInvestment : Investment) (state : InvestmentState) :
  let state' := updateInvestment updatedInvestment state in
  inv_id <$> investments state' = inv_id <$> investments state /\
  length (investments state') = length (investments state) /\
  (forall k inv,
     investments state !! k = Some inv ->
     investments state' !! k
     = Some (if bool_decide (inv_id inv = inv_id updatedInvestment)
             then updatedInvestment else inv)) /\
  (Forall (fun inv => inv_id inv <> inv_id updatedInvestment)
     (investments state)
   -> investments state' = investments state) /\
  updateInvestment updatedInvestment state' = state' /\
  isLoading state' = false /\ error state' = None.
Proof.
  cbn. split; [| split; [| split; [| split; [| split]]]].
  - induction (investments state) as [| inv l IH]; [reflexivity |].
    cbn. rewrite IH. f_equal. now case_bool_decide.
  - apply length_map.
  - intros k inv Hk.
    change (List.map ?f ?l) with (f <$> l).
    now rewrite list_lookup_fmap, Hk.
  - intros H. induction H as [| inv l Hinv _ IH]; [reflexivity |].
    cbn. rewrite IH. f_equal. now case_bool_decide.
  - unfold updateInvestment. cbn. f_equal.
    induction (investments state) as [| inv l IH]; [reflexivity |].
    cbn. rewrite IH. f_equal.
    destruct (bool_decide (inv_id inv = inv_id updatedInvestment)) eqn:E.
    + now rewrite bool_decide_eq_true_2.
    + now rewrite E.
  - auto.
Qed.

Lemma bucket_of_30 (c : Category) (t : RiskTolerance) :
  ~ (Reference.bucketFor c (calculateAssetAllocation 30 t) == 0)%Q.
Proof. destruct c, t; intros H; vm_compute in H; discriminate H. Qed.

(** X24: the recommendations of the store are those of an investor of 30
    called user123, whoever uses the store: no bucket of the allocation
    is 0 at 30, so that every recommended amount is the maximum of the
    share of the bucket and the minimum of the instrument, without the
    fallback percentages.  The investments are left as they are. *)
Theorem store_recommendations
    (clock : nat -> Z) (profile : FinancialProfile)
    (riskAssessment : RiskAssessment) (state : InvestmentState) :
  let state' :=
    InvestmentStore.generateRecommendations clock profile riskAssessment
      state in
  Forall
    (fun r =>
       exists inv,
         getInvestmentDetails (investmentType r) = Some inv /\
         rec_userId r = "user123" /\
         recommendedAmount r
         = Reference.recommendedAmountByBucket inv
             (monthlyIncome profile - monthlyExpenses profile)
             (calculateAssetAllocation 30 (tolerance riskAssessment)))
    (recommendations state') /\
  (forall c,
     percentageFor c (calculateAssetAllocation 30 (tolerance riskAssessment))
     = Reference.bucketFor c
         (calculateAssetAllocation 30 (tolerance riskAssessment))) /\
  investments state' = investments state /\
  isLoading state' = false /\ error state' = None.
Proof.
  cbn. split; [| split; [| auto]].
  - apply Portfolio.generated_Forall. intros inv tick Hin _.
    exists inv. cbn. split; [now apply Details.getInvestmentDetails_spec |].
    split; [reflexivity |].
    unfold calculateRecommendedAmount, Reference.recommendedAmountByBucket.
    cbv zeta.
    now rewrite (Recommendations.percentage_is_bucket _ _
                   (bucket_of_30 (category inv) (tolerance riskAssessment))).
  - intros c. apply Recommendations.percentage_is_bucket, bucket_of_30.
Qed.

End Store.
